(** * Observable properties: a model of [observable_properties.py]

    The module declares observable managed attributes: [observable] is a
    [property] subclass whose write hook runs the callbacks subscribed to the
    attribute, guarded against re-entrant modification.  This development
    embeds the module over an explicit Python-like store (class dictionaries,
    instance dictionaries, a heap of list objects) and states the properties
    of the specification against that embedding.

    Layout: the object model, the methods of [observable], the [Observable]
    mixin and the two public functions, the callbacks and their evaluation,
    class creation, then the lemmas and the properties. *)

From stdpp Require Import gmap strings list fin_maps.

(** ** Identities and values *)

(** A callback is known by its identity: Python compares functions with [==],
    which is identity for function objects. *)
Definition cb := nat.
(** Identity of an instance, and address of a list object. *)
Definition iid := nat.
Definition loc := nat.

(** The exceptions the module raises or lets through.  [UserError] stands for
    any exception a callback raises on its own. *)
Inductive exn :=
| ObservablePropertyError (msg : string)
| AttributeError
| TypeError
| UserError (msg : string).

(** The descriptor object: the three attributes [__set_name__] stores on it,
    and which accessors the property was given. *)
Record descriptor := Descriptor {
  observable_property : string;
  subscribers : string;
  recursions : string;
  has_fset : bool;
  has_fdel : bool
}.

(** What a dictionary slot holds: a plain value, a reference to a list object
    (lists are mutable and shared, so they live in the heap), or, in a class
    dictionary, an [observable] descriptor. *)
Inductive pyval :=
| VInt (z : Z)
| VList (l : loc)
| VObs (d : descriptor).

(** A class: its [__name__], its [__mro__] (the class itself first) and its
    own dictionary, [vars(cls)]. *)
Record class := Class {
  cls_name : string;
  cls_mro : list string;
  cls_dict : gmap string pyval
}.

Record object := Object {
  obj_class : string;
  obj_dict : gmap string pyval
}.

(** What a run leaves behind for an outside observer: every callback
    invocation with its three arguments, and every value a callback read. *)
Inductive event :=
| Called (f : cb) (instance : iid) (property_name : string) (value : Z)
| Observed (instance : iid) (property_name : string) (value : Z).

Record state := State {
  classes : gmap string class;
  objs : gmap iid object;
  heap : gmap loc (list cb);
  next_loc : loc;
  backing : gmap (iid * string) Z;
  trace : list event
}.

Definition set_heap (h : gmap loc (list cb)) (s : state) : state :=
  State (classes s) (objs s) h (next_loc s) (backing s) (trace s).
Definition set_backing (b : gmap (iid * string) Z) (s : state) : state :=
  State (classes s) (objs s) (heap s) (next_loc s) b (trace s).
Definition set_trace (t : list event) (s : state) : state :=
  State (classes s) (objs s) (heap s) (next_loc s) (backing s) t.
Definition set_objs (o : gmap iid object) (s : state) : state :=
  State (classes s) o (heap s) (next_loc s) (backing s) (trace s).
Definition set_classes (c : gmap string class) (s : state) : state :=
  State c (objs s) (heap s) (next_loc s) (backing s) (trace s).

(** The list object at an address. *)
Definition list_at (s : state) (l : loc) : list cb := default [] (heap s !! l).
Definition store_list (l : loc) (xs : list cb) (s : state) : state :=
  set_heap (<[l := xs]> (heap s)) s.
Definition log (e : event) (s : state) : state :=
  set_trace (trace s ++ [e]) s.

(** ** Computations

    A computation runs on the store and ends by returning, by raising, or by
    running out of fuel; the store survives an exception, which is what
    [finally] blocks and later calls see. *)
Inductive outcome (A : Type) :=
| Ret (a : A)
| Exn (e : exn)
| Diverge.
Arguments Ret {A} a.
Arguments Exn {A} e.
Arguments Diverge {A}.

Definition M (A : Type) : Type := state -> outcome A * state.

Definition ret {A} (a : A) : M A := fun s => (Ret a, s).
Definition raise {A} (e : exn) : M A := fun s => (Exn e, s).
Definition diverge {A} : M A := fun s => (Diverge, s).
Definition bind {A B} (m : M A) (k : A -> M B) : M B :=
  fun s => match m s with
           | (Ret a, s') => k a s'
           | (Exn e, s') => (Exn e, s')
           | (Diverge, s') => (Diverge, s')
           end.
Definition get_state : M state := fun s => (Ret s, s).
Definition modify (f : state -> state) : M unit := fun s => (Ret tt, f s).

#[export] Instance M_ret : MRet M := @ret.
#[export] Instance M_bind : MBind M := fun A B k m => bind m k.

(** [try: body finally: fin].  The finaliser runs whatever the body did; an
    exception of the finaliser replaces the outcome of the body. *)
Definition try_finally {A} (body : M A) (fin : M unit) : M A :=
  fun s => match body s with
           | (r, s') => match fin s' with
                        | (Ret _, s'') => (r, s'')
                        | (Exn e, s'') => (Exn e, s'')
                        | (Diverge, s'') => (Diverge, s'')
                        end
           end.

(** [try: body except ObservablePropertyError: handler]. *)
Definition try_except (body handler : M unit) : M unit :=
  fun s => match body s with
           | (Exn (ObservablePropertyError _), s') => handler s'
           | r => r
           end.

(** ** The object model *)

(** Lookup of a name along an MRO: the first class whose dictionary has it. *)
Fixpoint mro_lookup (s : state) (mro : list string) (name : string) : option pyval :=
  match mro with
  | [] => None
  | k :: rest =>
      match classes s !! k with
      | Some c => match cls_dict c !! name with
                  | Some v => Some v
                  | None => mro_lookup s rest name
                  end
      | None => mro_lookup s rest name
      end
  end.

(** Lookup of a name on a class object: [hasattr(owner, name)] and the type
    lookup that attribute access starts with. *)
Definition class_lookup (s : state) (k : string) (name : string) : option pyval :=
  match classes s !! k with
  | Some c => mro_lookup s (cls_mro c) name
  | None => None
  end.

(** Modelled from the spec: the getter the property wraps is written by the
    user of the module and is not part of it.  The specification has the
    accessors read, write and remove "a private backing field"; here that
    field is the slot of [backing] keyed by the instance and the property
    name, and reading an absent field raises [AttributeError]. *)
Definition fget (d : descriptor) (i : iid) : M Z :=
  fun s => match backing s !! (i, observable_property d) with
           | Some z => (Ret z, s)
           | None => (Exn AttributeError, s)
           end.
(** Modelled from the spec: the user's setter, which stores the value in the
    backing field ("the normal attribute-storage path"). *)
Definition fset (d : descriptor) (i : iid) (v : Z) : M unit :=
  modify (fun s => set_backing (<[(i, observable_property d) := v]> (backing s)) s).
(** Modelled from the spec: the user's deleter, which removes the backing
    field ("remove the stored value") and raises [AttributeError] when there
    is none. *)
Definition fdel (d : descriptor) (i : iid) : M unit :=
  fun s => match backing s !! (i, observable_property d) with
           | Some _ => (Ret tt, set_backing (delete (i, observable_property d) (backing s)) s)
           | None => (Exn AttributeError, s)
           end.

(** [property.__get__], [property.__set__] and [property.__delete__]: call the
    accessor, or raise [AttributeError] when the property has none ([fget] is
    always there: [observable] decorates the getter). *)
Definition property_get (d : descriptor) (i : iid) : M Z := fget d i.
Definition property_set (d : descriptor) (i : iid) (v : Z) : M unit :=
  if has_fset d then fset d i v else raise AttributeError.
Definition property_delete (d : descriptor) (i : iid) : M unit :=
  if has_fdel d then fdel d i else raise AttributeError.

(** [getattr(instance, name)]: a data descriptor found on the type wins, then
    the instance dictionary, then a plain class attribute. *)
Definition getattr (i : iid) (name : string) : M pyval :=
  fun s => match objs s !! i with
           | None => (Exn AttributeError, s)
           | Some o =>
               match class_lookup s (obj_class o) name with
               | Some (VObs d) => (z ← property_get d i; ret (VInt z)) s
               | found =>
                   match obj_dict o !! name with
                   | Some v => (Ret v, s)
                   | None => match found with
                             | Some v => (Ret v, s)
                             | None => (Exn AttributeError, s)
                             end
                   end
               end
           end.

(** [hasattr]: the attribute access, with [AttributeError] turned into
    [False]. *)
Definition hasattr (i : iid) (name : string) : M bool :=
  fun s => match getattr i name s with
           | (Ret _, s') => (Ret true, s')
           | (Exn AttributeError, s') => (Ret false, s')
           | (Exn e, s') => (Exn e, s')
           | (Diverge, s') => (Diverge, s')
           end.

(** [object.__delattr__] for a name that is no data descriptor: the name must
    be in the instance dictionary. *)
Definition delattr (i : iid) (name : string) : M unit :=
  fun s => match objs s !! i with
           | None => (Exn AttributeError, s)
           | Some o =>
               match obj_dict o !! name with
               | Some _ =>
                   (Ret tt, set_objs (<[i := Object (obj_class o) (delete name (obj_dict o))]> (objs s)) s)
               | None => (Exn AttributeError, s)
               end
           end.

(** [object.__setattr__] for a name that is no data descriptor. *)
Definition object_setattr (i : iid) (name : string) (v : pyval) : M unit :=
  fun s => match objs s !! i with
           | None => (Exn AttributeError, s)
           | Some o =>
               (Ret tt, set_objs (<[i := Object (obj_class o) (<[name := v]> (obj_dict o))]> (objs s)) s)
           end.

(** [instance.__class__.__name__]. *)
Definition class_name_of (i : iid) : M string :=
  fun s => match objs s !! i with
           | None => (Exn AttributeError, s)
           | Some o => match classes s !! obj_class o with
                       | Some c => (Ret (cls_name c), s)
                       | None => (Ret (obj_class o), s)
                       end
           end.

(** *** List methods, on whatever value the attribute held *)

(** [x in xs]. *)
Definition py_contains (xs : pyval) (x : cb) : M bool :=
  match xs with
  | VList l => fun s => (Ret (bool_decide (x ∈ list_at s l)), s)
  | _ => raise TypeError
  end.
(** [xs.append(x)]. *)
Definition py_append (xs : pyval) (x : cb) : M unit :=
  match xs with
  | VList l => modify (fun s => store_list l (list_at s l ++ [x]) s)
  | _ => raise AttributeError
  end.
(** [xs.clear()]. *)
Definition py_clear (xs : pyval) : M unit :=
  match xs with
  | VList l => modify (store_list l [])
  | _ => raise AttributeError
  end.
(** The first occurrence is the one [list.remove] deletes. *)
Fixpoint remove_first (x : cb) (xs : list cb) : list cb :=
  match xs with
  | [] => []
  | y :: ys => if decide (x = y) then ys else y :: remove_first x ys
  end.
(** [xs.remove(x)], called only after [x in xs] held. *)
Definition py_remove (xs : pyval) (x : cb) : M unit :=
  match xs with
  | VList l => modify (fun s => store_list l (remove_first x (list_at s l)) s)
  | _ => raise AttributeError
  end.
(** One step of the list iterator behind [for x in xs]: the element at the
    iterator's index in the list as it is now, or the end of the loop. *)
Definition py_next (xs : pyval) (idx : nat) : M (option cb) :=
  match xs with
  | VList l => fun s => (Ret (list_at s l !! idx), s)
  | _ => raise TypeError
  end.

(** ** Callbacks

    A callback is a Python function; what it does when called is given by a
    small command language, enough for the behaviours the specification
    speaks of: assigning an attribute (of the notified instance or of another
    one), raising, handling the re-entrancy error, subscribing and
    unsubscribing, reading, and acting only on some values. *)
Inductive target :=
| Self
| Other (i : iid).

Inductive cmd :=
| Skip
| Seq (c1 c2 : cmd)
| Assign (t : target) (name : string) (e : Z -> Z)
| Del (t : target) (name : string)
| Read (t : target) (name : string)
| Raise (e : exn)
| Subscribe (f : cb) (t : target) (name : string)
| Unsubscribe (f : cb) (t : target) (name : string)
| Notify (t : target) (name : string)
| WithObservable (t : target) (name : string) (c : cmd)
| TryExcept (c handler : cmd)
| When (p : Z -> bool) (c : cmd).

(** A function object: its [__name__], which some callables lack
    ([functools.partial] objects, for one), and its body. *)
Record function := Function {
  fn_name : option string;
  fn_body : cmd
}.

Definition resolve (self : iid) (t : target) : iid :=
  match t with
  | Self => self
  | Other i => i
  end.

(** The names of the two per-attribute lists. *)
Definition subscribers_name (property_name : string) : string :=
  "__" +:+ property_name +:+ "_subscribers".
Definition recursions_name (property_name : string) : string :=
  "__" +:+ property_name +:+ "_recursions".

Definition not_observable_msg (property_name cls : string) : string :=
  "'" +:+ property_name +:+ "' is not an observable property of '" +:+ cls +:+ "'".
Definition not_allowed_msg (observer cls property_name : string) : string :=
  "'" +:+ observer +:+ "' is not allowed to modify observable property "
  +:+ "'" +:+ cls +:+ "." +:+ property_name +:+ "'".

(** ** The public functions *)

(** [unsubscribe(callback, instance, property_name)]. *)
Definition unsubscribe (callback : cb) (instance : iid) (property_name : string) : M bool :=
  let subscribers_attr_name := subscribers_name property_name in
  found ← hasattr instance subscribers_attr_name;
  if found : bool then
    subs ← getattr instance subscribers_attr_name;
    present ← py_contains subs callback;
    if present : bool then
      py_remove subs callback;;
      mret true
    else
      mret false
  else
    cls ← class_name_of instance;
    raise (ObservablePropertyError (not_observable_msg property_name cls)).

(** [subscribe(callback, instance, property_name)]. *)
Definition subscribe (callback : cb) (instance : iid) (property_name : string) : M unit :=
  unsubscribe callback instance property_name;;
  let subscribers_attr_name := subscribers_name property_name in
  subs ← getattr instance subscribers_attr_name;
  py_append subs callback.

(** ** The class [observable] *)
Module observable.
Section Methods.
(** The function objects, how a callback is called, and the bound on the
    length of a loop: the last two are tied to the evaluation of callback
    bodies further down. *)
Context (defs : cb -> function).
Context (call : cb -> iid -> string -> Z -> M unit).
Context (fuel : nat).

(** [observer.__name__]. *)
Definition name_of (observer : cb) : M string :=
  match fn_name (defs observer) with
  | Some n => mret n
  | None => raise AttributeError
  end.

(** The [for observer in subscribers] loop of [__execute_callbacks], from
    iterator index [idx] on.  The iterator reads the list as it is at each
    step, so changes made by the callbacks are seen. *)
Fixpoint for_observer (n : nat) (self : descriptor) (instance : iid) (value : Z)
    (subs recs : pyval) (idx : nat) : M unit :=
  match n with
  | O => diverge
  | S n' =>
      next ← py_next subs idx;
      match next with
      | None => mret tt
      | Some observer =>
          running ← py_contains recs observer;
          if negb running then
            py_append recs observer;;
            call observer instance (observable_property self) value;;
            for_observer n' self instance value subs recs (S idx)
          else
            name ← name_of observer;
            cls ← class_name_of instance;
            raise (ObservablePropertyError
                     (not_allowed_msg name cls (observable_property self)))
      end
  end.

Definition __execute_callbacks (self : descriptor) (instance : iid) (value : Z)
    (subs recs : pyval) : M unit :=
  for_observer fuel self instance value subs recs 0%nat.

Definition _run_observers (self : descriptor) (instance : iid) (value : Z) : M unit :=
  subs ← getattr instance (subscribers self);
  recs ← getattr instance (recursions self);
  try_finally
    (__execute_callbacks self instance value subs recs)
    (py_clear recs).

Definition __set__ (self : descriptor) (instance : iid) (value : Z) : M unit :=
  subs ← getattr instance (subscribers self);
  recs ← getattr instance (recursions self);
  try_finally
    (property_set self instance value;;
     __execute_callbacks self instance value subs recs)
    (py_clear recs).

Definition __delete__ (self : descriptor) (instance : iid) : M unit :=
  property_delete self instance;;
  delattr instance (subscribers self);;
  delattr instance (recursions self).
End Methods.

(** [hasattr(owner, name)] on a class object. *)
Definition class_hasattr (owner : string) (name : string) : M bool :=
  fun s => (Ret (bool_decide (is_Some (class_lookup s owner name))), s).

(** [setattr(owner, name, [])]: a new list object, bound in the dictionary of
    the class. *)
Definition class_setattr_new_list (owner : string) (name : string) : M unit :=
  modify (fun s =>
    let l := next_loc s in
    let s1 := State (classes s) (objs s) (<[l := []]> (heap s)) (S l) (backing s) (trace s) in
    match classes s !! owner with
    | Some c =>
        set_classes (<[owner := Class (cls_name c) (cls_mro c) (<[name := VList l]> (cls_dict c))]> (classes s)) s1
    | None => s1
    end).

(** [__set_name__(self, owner, owner_name)].  The three names are stored on
    the descriptor object, so the updated descriptor is returned. *)
Definition __set_name__ (self : descriptor) (owner : string) (owner_name : string) : M descriptor :=
  let self := Descriptor owner_name (subscribers_name owner_name) (recursions_name owner_name)
                         (has_fset self) (has_fdel self) in
  has_subs ← class_hasattr owner (subscribers self);
  (if negb has_subs then class_setattr_new_list owner (subscribers self) else mret tt);;
  has_recs ← class_hasattr owner (recursions self);
  (if negb has_recs then class_setattr_new_list owner (recursions self) else mret tt);;
  mret self.
End observable.

(** ** The helper class [Observable] *)
Module Observable.
Section Methods.
Context (defs : cb -> function).
Context (call : cb -> iid -> string -> Z -> M unit).
Context (fuel : nat).

Definition subscribe (self : iid) (property_name : string) (callback : cb) : M unit :=
  subscribe callback self property_name.

Definition unsubscribe (self : iid) (property_name : string) (callback : cb) : M bool :=
  unsubscribe callback self property_name.

(** [vars(self.__class__)]. *)
Definition vars_of_class (self : iid) : M (gmap string pyval) :=
  fun s => match objs s !! self with
           | None => (Exn AttributeError, s)
           | Some o => match classes s !! obj_class o with
                       | Some c => (Ret (cls_dict c), s)
                       | None => (Ret ∅, s)
                       end
           end.

(** [_observable_notify(self, property_name)].  The current value comes from
    the getter, so it is a number in this model. *)
Definition _observable_notify (self : iid) (property_name : string) : M unit :=
  vrs ← vars_of_class self;
  match vrs !! property_name with
  | Some (VObs d) =>
      current ← getattr self property_name;
      match current with
      | VInt z => observable._run_observers defs call fuel d self z
      | _ => raise TypeError
      end
  | _ =>
      cls ← class_name_of self;
      raise (ObservablePropertyError (not_observable_msg property_name cls))
  end.

(** [with self._observable(property_name): body]: the notification runs
    when the body ends normally. *)
Definition _observable (self : iid) (property_name : string) (body : M unit) : M unit :=
  body;;
  _observable_notify self property_name.
End Methods.
End Observable.

(** ** Statements and the evaluation of callbacks *)
Section Evaluation.
Context (defs : cb -> function).

Section Statements.
Context (call : cb -> iid -> string -> Z -> M unit).
Context (fuel : nat).

(** The statement [instance.name = value]: an [observable] found on the
    type takes the assignment, any other name goes to the instance
    dictionary. *)
Definition py_setattr (instance : iid) (name : string) (value : Z) : M unit :=
  fun s => match objs s !! instance with
           | None => (Exn AttributeError, s)
           | Some o =>
               match class_lookup s (obj_class o) name with
               | Some (VObs d) => observable.__set__ defs call fuel d instance value s
               | _ => object_setattr instance name (VInt value) s
               end
           end.

(** The statement [del instance.name]. *)
Definition py_delattr (instance : iid) (name : string) : M unit :=
  fun s => match objs s !! instance with
           | None => (Exn AttributeError, s)
           | Some o =>
               match class_lookup s (obj_class o) name with
               | Some (VObs d) => observable.__delete__ d instance s
               | _ => delattr instance name s
               end
           end.

(** The body of a callback, run for the notified instance and value. *)
Fixpoint exec (c : cmd) (self : iid) (value : Z) : M unit :=
  match c with
  | Skip => mret tt
  | Seq c1 c2 => exec c1 self value;; exec c2 self value
  | Assign t name e => py_setattr (resolve self t) name (e value)
  | Del t name => py_delattr (resolve self t) name
  | Read t name =>
      x ← getattr (resolve self t) name;
      match x with
      | VInt z => modify (log (Observed (resolve self t) name z))
      | _ => mret tt
      end
  | Raise e => raise e
  | Subscribe f t name => subscribe f (resolve self t) name
  | Unsubscribe f t name => unsubscribe f (resolve self t) name;; mret tt
  | Notify t name => Observable._observable_notify defs call fuel (resolve self t) name
  | WithObservable t name c =>
      Observable._observable defs call fuel (resolve self t) name (exec c self value)
  | TryExcept c handler => try_except (exec c self value) (exec handler self value)
  | When p c => if p value then exec c self value else mret tt
  end.
End Statements.

(** Calling [observer(instance, property_name, value)]: the call is
    recorded, then the body runs.  Each nested call has one unit of fuel
    less, and that is also the bound of the loops started from it. *)
Fixpoint call_observer (fuel : nat) (observer : cb) (instance : iid)
    (property_name : string) (value : Z) : M unit :=
  match fuel with
  | O => diverge
  | S fuel' =>
      modify (log (Called observer instance property_name value));;
      exec (call_observer fuel') fuel' (fn_body (defs observer)) instance value
  end.

(** What code outside the callbacks does, with [fuel] to spend. *)
Definition assign (fuel : nat) (instance : iid) (name : string) (value : Z) : M unit :=
  py_setattr (call_observer fuel) fuel instance name value.
Definition delete_attr (instance : iid) (name : string) : M unit :=
  py_delattr instance name.
Definition notify (fuel : nat) (instance : iid) (name : string) : M unit :=
  Observable._observable_notify defs (call_observer fuel) fuel instance name.
End Evaluation.

(** ** Class and instance creation *)

(** A member of a class body: an [observable] built with or without a setter
    and a deleter, or a plain class attribute. *)
Inductive member :=
| MObservable (fset fdel : bool)
| MValue (z : Z).

(** The value a member binds in the namespace; a descriptor has no names
    until [__set_name__] is called. *)
Definition member_value (m : member) : pyval :=
  match m with
  | MObservable fset fdel => VObs (Descriptor "" "" "" fset fdel)
  | MValue z => VInt z
  end.

(** The [__set_name__] calls at the end of class creation, one for each
    descriptor of the class body, in the order of the body.  The names are
    attributes of the descriptor object, which the class dictionary refers
    to: the dictionary entry is updated with them. *)
Fixpoint set_names (owner : string) (members : list (string * member)) : M unit :=
  match members with
  | [] => mret tt
  | (name, MObservable fset fdel) :: rest =>
      d ← observable.__set_name__ (Descriptor "" "" "" fset fdel) owner name;
      modify (fun s =>
        match classes s !! owner with
        | Some c =>
            set_classes (<[owner := Class (cls_name c) (cls_mro c) (<[name := VObs d]> (cls_dict c))]> (classes s)) s
        | None => s
        end);;
      set_names owner rest
  | (_, MValue _) :: rest => set_names owner rest
  end.

(** [class name(bases): members]: the class object gets the namespace of the
    body as its dictionary ([members] lists it, each name once) and its MRO
    (itself, then the linearised bases), then the descriptors are told their
    names. *)
Definition define_class (name : string) (bases_mro : list string)
    (members : list (string * member)) : M unit :=
  modify (fun s =>
    set_classes (<[name := Class name (name :: bases_mro)
                             (list_to_map (prod_map id member_value <$> members))]> (classes s)) s);;
  set_names name members.

(** [instance = cls()], the new object being given the identity [i]. *)
Definition new_object (i : iid) (cls : string) : M unit :=
  modify (fun s => set_objs (<[i := Object cls ∅]> (objs s)) s).

Definition empty_state : state := State ∅ ∅ ∅ 0%nat ∅ [].

(** ** Vocabulary of the properties *)

(** The property [name] of instance [i] is the [observable] [d], told its
    names as [__set_name__] does, and reading the two list attributes off the
    instance gives the list objects at [ls] and [lr]. *)
Record attached (s : state) (i : iid) (name : string) (d : descriptor)
    (ls lr : loc) : Prop := Attached {
  att_class : exists o, objs s !! i = Some o /\
                        class_lookup s (obj_class o) name = Some (VObs d);
  att_property : observable_property d = name;
  att_subscribers : subscribers d = subscribers_name name;
  att_recursions : recursions d = recursions_name name;
  att_subs : getattr i (subscribers_name name) s = (Ret (VList ls), s);
  att_recs : getattr i (recursions_name name) s = (Ret (VList lr), s);
  att_apart : ls ≠ lr
}.

(** The store after the setter has written [v], and after some events were
    recorded. *)
Definition stored (i : iid) (name : string) (v : Z) (s : state) : state :=
  set_backing (<[(i, name) := v]> (backing s)) s.
Definition logged (evs : list event) (s : state) : state :=
  set_trace (trace s ++ evs) s.

(** The calls a notification of [fs] makes, in order. *)
Definition calls (i : iid) (name : string) (v : Z) (fs : list cb) : list event :=
  (fun f => Called f i name v) <$> fs.

(** A callback that, notified of the value [v], does its own work and
    returns: no exception, and no change to the store besides the record of
    the call. *)
Definition quiet (defs : cb -> function) (f : cb) (v : Z) : Prop :=
  forall fuel i name s,
    call_observer defs (S fuel) f i name v s = (Ret tt, log (Called f i name v) s).

#[export] Instance event_eq_dec : EqDecision event.
Proof. solve_decision. Defined.


(** A callback that, notified of the value [v], raises [e] and leaves the
    store as it was, besides the record of the call. *)
Definition raises (defs : cb -> function) (f : cb) (v : Z) (e : exn) : Prop :=
  forall fuel i name s,
    call_observer defs (S fuel) f i name v s = (Exn e, log (Called f i name v) s).

(** A body whose first statement assigns [e value] to the attribute [name]
    of the notified instance. *)
Inductive reassigns (name : string) (e : Z -> Z) : cmd -> Prop :=
| reassigns_here : reassigns name e (Assign Self name e)
| reassigns_seq (c1 c2 : cmd) : reassigns name e c1 -> reassigns name e (Seq c1 c2).

(** The outcome of the guard check that trips on [f]: the error names the
    callback, and building the message needs its [__name__]. *)
Definition reentry_error (defs : cb -> function) (f : cb) (cls name : string) : exn :=
  match fn_name (defs f) with
  | Some observer => ObservablePropertyError (not_allowed_msg observer cls name)
  | None => AttributeError
  end.

(** *** Stores made by class creation *)

(** A name a class body can bind: inside a class body a name with two
    leading underscores is mangled, so no member bears the name of a list
    attribute. *)
Definition plain_name (n : string) : Prop :=
  forall m, n ≠ subscribers_name m /\ n ≠ recursions_name m.

(** A class dictionary as class creation makes it: a subscriber list is
    there only for a name bound to an [observable], and descriptors are bound
    to plain names.  With [pending = Some n], the dictionary in the middle of
    the [__set_name__] call for [n]. *)
Definition good_dict (pending : option string) (D : gmap string pyval) : Prop :=
  (forall m v, D !! subscribers_name m = Some v ->
     pending = Some m \/ exists d, D !! m = Some (VObs d))
  /\ (forall m d, D !! m = Some (VObs d) -> plain_name m).

(** A store in which nothing but class creation has bound list attributes:
    class dictionaries are good, every class heads its own MRO, and no
    instance dictionary has list attributes of its own. *)
Definition wf_pending (pending : option (string * string)) (s : state) : Prop :=
  (forall k c, classes s !! k = Some c ->
     good_dict (match pending with
                | Some (k', n) => if decide (k' = k) then Some n else None
                | None => None
                end) (cls_dict c)
     /\ k ∈ cls_mro c)
  /\ (forall i o n, objs s !! i = Some o ->
        obj_dict o !! subscribers_name n = None
        /\ obj_dict o !! recursions_name n = None).
Definition wf (s : state) : Prop := wf_pending None s.

(** Whether the class [k] itself binds [name] to an [observable], and whether
    the class [cls] or a class of its MRO does. *)
Definition binds_observable (s : state) (k : string) (name : string) : bool :=
  match classes s !! k with
  | Some c => match cls_dict c !! name with
              | Some (VObs _) => true
              | _ => false
              end
  | None => false
  end.
Definition declared (s : state) (cls : string) (name : string) : bool :=
  match classes s !! cls with
  | Some c => existsb (fun k => binds_observable s k name) (cls_mro c)
  | None => false
  end.

(** How many entries of a subscriber list are the callback [f]. *)
Definition entries (f : cb) (L : list cb) : nat := length (filter (fun g => g = f) L).

(** ** The scenario of the specification

    A class [Temperature] with the observable attribute [celsius] and two
    instances, and the callbacks the scenarios use. *)
Definition log_cb : cb := 0%nat.
Definition bad_cb : cb := 1%nat.
Definition partial_cb : cb := 2%nat.
Definition audit_cb : cb := 3%nat.
Definition check_cb : cb := 4%nat.
Definition probe_cb : cb := 5%nat.
Definition mirror_cb : cb := 6%nat.
Definition careful_cb : cb := 7%nat.
Definition once_cb : cb := 8%nat.

Definition demo_defs (f : cb) : function :=
  match f with
  | 0%nat => Function (Some "log") Skip
  | 1%nat => Function (Some "bad") (Assign Self "celsius" (fun v => (v + 1)%Z))
  | 2%nat => Function None (Assign Self "celsius" (fun v => (v + 1)%Z))
  | 3%nat => Function (Some "audit") Skip
  | 4%nat => Function (Some "check") (When (fun v => (v <? 0)%Z) (Raise (UserError "negative")))
  | 5%nat => Function (Some "probe") (Seq (Read Self "celsius") (Raise (UserError "probe")))
  | 6%nat => Function (Some "mirror") (Assign (Other 2%nat) "celsius" (fun v => v))
  | 7%nat => Function (Some "careful")
               (TryExcept (Assign Self "celsius" (fun v => (v + 1)%Z)) Skip)
  | 8%nat => Function (Some "once") (Unsubscribe 8%nat Self "celsius")
  | _ => Function (Some "observer") Skip
  end.

Definition after {A} (m : M A) (s : state) : state := snd (m s).

Definition world : state :=
  after (define_class "Temperature" [] [("celsius", MObservable true true)];;
         new_object 1%nat "Temperature";;
         new_object 2%nat "Temperature") empty_state.

Definition celsius : descriptor :=
  Descriptor "celsius" "__celsius_subscribers" "__celsius_recursions" true true.

(** ** A second scenario: two attributes and a subclass

    A class [Thermostat] with the observable attributes [celsius] and
    [fahrenheit] and a read-only observable [kelvin], a subclass
    [SmartThermostat] that declares nothing observable of its own, one
    instance of each, and three more callbacks. *)
Definition recruit_cb : cb := 9%nat.

Definition house_defs (f : cb) : function :=
  match f with
  | 9%nat => Function (Some "recruit") (Subscribe audit_cb Self "celsius")
  | 10%nat => Function (Some "convert")
                (Assign Self "fahrenheit" (fun v => (v * 9 / 5 + 32)%Z))
  | 11%nat => Function (Some "renotify") (Notify Self "celsius")
  | _ => demo_defs f
  end.

Definition house : state :=
  after (define_class "Thermostat" []
           [("celsius", MObservable true true);
            ("fahrenheit", MObservable true false);
            ("kelvin", MObservable false false)];;
         define_class "SmartThermostat" ["Thermostat"] [("mode", MValue 0)];;
         new_object 1%nat "Thermostat";;
         new_object 2%nat "SmartThermostat") empty_state.

Definition fahrenheit : descriptor :=
  Descriptor "fahrenheit" "__fahrenheit_subscribers" "__fahrenheit_recursions" true false.
Definition kelvin : descriptor :=
  Descriptor "kelvin" "__kelvin_subscribers" "__kelvin_recursions" false false.

(** The class of the instance [i] binds [name] to the [observable] [d] in its
    own dictionary: what [_observable_notify] looks for in
    [vars(self.__class__)]. *)
Definition own_observable (s : state) (i : iid) (name : string) (d : descriptor) : Prop :=
  exists o c, objs s !! i = Some o /\ classes s !! obj_class o = Some c
              /\ cls_dict c !! name = Some (VObs d).

(** The callbacks of a list other than [f], in their order. *)
Definition others (f : cb) (L : list cb) : list cb := filter (fun g => g ≠ f) L.

(** The lists of a class dictionary as [__set_name__] leaves them when the
    class is created: every list object bound there is allocated and empty,
    and no list object is bound under two names. *)
Definition fresh_lists (s : state) (D : gmap string pyval) : Prop :=
  (forall key l, D !! key = Some (VList l) ->
     (l < next_loc s)%nat /\ heap s !! l = Some [])
  /\ (forall key1 key2 l, D !! key1 = Some (VList l) -> D !! key2 = Some (VList l) ->
         key1 = key2).

(** * Lemmas *)

(** ** The store *)

(** Two stores with the same six components are the same store. *)
Lemma state_eq (s1 s2 : state) :
  classes s1 = classes s2 -> objs s1 = objs s2 -> heap s1 = heap s2 ->
  next_loc s1 = next_loc s2 -> backing s1 = backing s2 -> trace s1 = trace s2 ->
  s1 = s2.
Proof. destruct s1, s2; simpl; congruence. Qed.

(** The components of a store written with [store_list], [logged], [log] and
    [stored]; equalities between such stores; lookups in their heaps. *)
Ltac store_simpl :=
  cbn [classes objs heap next_loc backing trace
       log logged store_list stored set_heap set_trace set_backing].
Ltac store_eq :=
  apply state_eq; store_simpl; unfold calls;
  rewrite ?insert_insert_eq, ?fmap_app, <- ?app_assoc; try done.
Tactic Notation "heap_lookup" "by" tactic(tac) :=
  store_simpl;
  repeat first [rewrite lookup_insert_eq | rewrite lookup_insert_ne by tac];
  done.
Tactic Notation "heap_lookup" := heap_lookup by done.

Lemma store_list_same (l : loc) (xs : list cb) (s : state) :
  heap s !! l = Some xs -> store_list l xs s = s.
Proof.
  intros H. destruct s as [c o h n b t]; simpl in *.
  unfold store_list, set_heap; simpl. by rewrite insert_id.
Qed.

Lemma store_list_twice (l : loc) (xs ys : list cb) (s : state) :
  store_list l ys (store_list l xs s) = store_list l ys s.
Proof.
  unfold store_list, set_heap; simpl. by rewrite insert_insert_eq.
Qed.

Lemma list_at_store_eq (l : loc) (xs : list cb) (s : state) :
  list_at (store_list l xs s) l = xs.
Proof. unfold list_at. heap_lookup. Qed.

Lemma list_at_held (l : loc) (xs : list cb) (s : state) :
  heap s !! l = Some xs -> list_at s l = xs.
Proof. intros H. unfold list_at. by rewrite H. Qed.

(** ** Attribute lookup depends on the classes and the objects only *)

Lemma mro_lookup_frame (s s' : state) (mro : list string) (name : string) :
  classes s' = classes s -> mro_lookup s' mro name = mro_lookup s mro name.
Proof.
  intros Hc. induction mro as [|k rest IH]; simpl; [done|].
  rewrite Hc, IH. done.
Qed.

Lemma class_lookup_frame (s s' : state) (k name : string) :
  classes s' = classes s -> class_lookup s' k name = class_lookup s k name.
Proof.
  intros Hc. unfold class_lookup. rewrite Hc.
  destruct (classes s !! k); [|done]. by apply mro_lookup_frame.
Qed.

(** An attribute that holds a list is not served by a property getter, so
    the backing fields, the heap and the trace do not matter to it. *)
Lemma getattr_list_frame (s s' : state) (i : iid) (name : string) (l : loc) :
  classes s' = classes s -> objs s' = objs s ->
  getattr i name s = (Ret (VList l), s) ->
  getattr i name s' = (Ret (VList l), s').
Proof.
  intros Hc Ho. unfold getattr. rewrite Ho.
  destruct (objs s !! i) as [o|]; [|done].
  rewrite (class_lookup_frame s s' _ _ Hc).
  destruct (class_lookup s (obj_class o) name) as [[z|l'|d]|].
  - destruct (obj_dict o !! name); intros [= ->]; done.
  - destruct (obj_dict o !! name); intros [= ->]; done.
  - unfold property_get, fget, mbind, M_bind, bind, mret, M_ret, ret.
    destruct (backing s !! (i, observable_property d)); intros [=].
  - destruct (obj_dict o !! name); intros [= ->]; done.
Qed.

Lemma attached_frame (s s' : state) (i : iid) (name : string) (d : descriptor)
    (ls lr : loc) :
  classes s' = classes s -> objs s' = objs s ->
  attached s i name d ls lr -> attached s' i name d ls lr.
Proof.
  intros Hc Ho [(o & Hi & Hl) Hp Hs Hr Hgs Hgr Hap].
  split; try done.
  - exists o. rewrite Ho. split; [done|]. by rewrite (class_lookup_frame s s').
  - by apply (getattr_list_frame s s').
  - by apply (getattr_list_frame s s').
Qed.

Lemma class_name_of_frame (s s' : state) (i : iid) (cls : string) :
  classes s' = classes s -> objs s' = objs s ->
  class_name_of i s = (Ret cls, s) -> class_name_of i s' = (Ret cls, s').
Proof.
  intros Hc Ho. unfold class_name_of. rewrite Ho, Hc.
  destruct (objs s !! i) as [o|]; [|done].
  destruct (classes s !! obj_class o); intros [= ->]; done.
Qed.

(** ** The notification loop *)

Lemma logged_nil (s : state) : logged [] s = s.
Proof. destruct s; unfold logged, set_trace; simpl. by rewrite app_nil_r. Qed.

Section Loop.
Context (defs : cb -> function).
Context (d : descriptor) (i : iid) (v : Z) (ls lr : loc).
Context (Hapart : ls ≠ lr).

(** One turn of the loop on a subscriber that is not running: it joins the
    guard and is called; the loop goes on if the call returns. *)
Lemma for_observer_step (call : cb -> iid -> string -> Z -> M unit)
    (n idx : nat) (xs g : list cb) (f : cb) (s : state) :
  heap s !! ls = Some xs -> xs !! idx = Some f ->
  heap s !! lr = Some g -> f ∉ g ->
  observable.for_observer defs call (S n) d i v (VList ls) (VList lr) idx s
  = match call f i (observable_property d) v (store_list lr (g ++ [f]) s) with
    | (Ret _, s') =>
        observable.for_observer defs call n d i v (VList ls) (VList lr) (S idx) s'
    | (Exn e, s') => (Exn e, s')
    | (Diverge, s') => (Diverge, s')
    end.
Proof.
  intros Hls Hf Hlr Hg. cbn [observable.for_observer].
  unfold mbind, M_bind, bind, py_next, py_contains.
  rewrite (list_at_held _ _ _ Hls), Hf. cbv beta iota.
  rewrite (list_at_held _ _ _ Hlr), bool_decide_eq_false_2 by done.
  cbn [negb py_append modify]. by rewrite (list_at_held _ _ _ Hlr).
Qed.

(** One turn of the loop on a subscriber that is in the guard: the loop
    stops there with the error, or with [AttributeError] when the subscriber
    has no [__name__] to put in the message. *)
Lemma for_observer_hit (call : cb -> iid -> string -> Z -> M unit)
    (n idx : nat) (xs g : list cb) (f : cb) (cls : string) (s : state) :
  heap s !! ls = Some xs -> xs !! idx = Some f ->
  heap s !! lr = Some g -> f ∈ g ->
  class_name_of i s = (Ret cls, s) ->
  observable.for_observer defs call (S n) d i v (VList ls) (VList lr) idx s
  = match fn_name (defs f) with
    | Some name =>
        (Exn (ObservablePropertyError (not_allowed_msg name cls (observable_property d))), s)
    | None => (Exn AttributeError, s)
    end.
Proof.
  intros Hls Hf Hlr Hg Hcls. cbn [observable.for_observer].
  unfold mbind, M_bind, bind, py_next, py_contains.
  rewrite (list_at_held _ _ _ Hls), Hf. cbv beta iota.
  rewrite (list_at_held _ _ _ Hlr), bool_decide_eq_true_2 by done.
  cbn [negb]. unfold observable.name_of.
  destruct (fn_name (defs f)); [|done].
  unfold mret, M_ret, ret. by rewrite Hcls.
Qed.

(** A run of quiet subscribers that are not in the guard: each is added to
    the guard and called, and the loop goes on after them. *)
Lemma for_observer_quiet (fuel : nat) (pre : list cb) :
  forall (done rest g : list cb) (s : state) (n : nat),
    heap s !! ls = Some (done ++ pre ++ rest) ->
    heap s !! lr = Some g ->
    NoDup pre ->
    (forall f, f ∈ pre -> f ∉ g) ->
    (forall f, f ∈ pre -> quiet defs f v) ->
    observable.for_observer defs (call_observer defs (S fuel)) (length pre + n) d i v
      (VList ls) (VList lr) (length done) s
    = observable.for_observer defs (call_observer defs (S fuel)) n d i v
        (VList ls) (VList lr) (length done + length pre)
        (logged (calls i (observable_property d) v pre) (store_list lr (g ++ pre) s)).
Proof.
  induction pre as [|f pre IH]; intros done rest g s n Hls Hlr Hnd Hg Hq.
  - simpl. rewrite Nat.add_0_r, app_nil_r, logged_nil.
    by rewrite (store_list_same _ _ _ Hlr).
  - simpl length. replace (S (length pre) + n)%nat with (S (length pre + n)) by lia.
    rewrite (for_observer_step _ _ _ _ g f _ Hls); [|by apply list_lookup_middle|done|apply Hg; left].
    rewrite (Hq f (list_elem_of_here _ _)).
    apply NoDup_cons in Hnd as [Hf Hnd].
    replace (S (length done)) with (length (done ++ [f])) by (rewrite length_app; simpl; lia).
    rewrite (IH (done ++ [f]) rest (g ++ [f])); try done.
    + f_equal.
      * rewrite length_app. simpl. lia.
      * store_eq.
    + rewrite <- app_assoc. simpl. heap_lookup.
    + heap_lookup.
    + intros f' Hf' [Hin|Hin%list_elem_of_singleton]%elem_of_app.
      * apply (Hg f'); [by right|done].
      * subst. done.
    + intros f' Hf'. apply Hq. by right.
Qed.

(** The loop ends when the iterator has passed the last subscriber. *)
Lemma for_observer_end (call : cb -> iid -> string -> Z -> M unit)
    (n : nat) (xs : list cb) (s : state) :
  heap s !! ls = Some xs ->
  observable.for_observer defs call (S n) d i v (VList ls) (VList lr) (length xs) s
  = (Ret tt, s).
Proof.
  intros Hls. cbn [observable.for_observer].
  unfold mbind, M_bind, bind, py_next.
  rewrite (list_at_held _ _ _ Hls).
  by rewrite lookup_ge_None_2.
Qed.
End Loop.

(** ** Assignment to an attached attribute *)


Section Assignment.
Context (defs : cb -> function).
Context (s : state) (i : iid) (name : string) (d : descriptor) (ls lr : loc).
Context (Hatt : attached s i name d ls lr).

(** The assignment statement reaches [__set__] with the two lists. *)
Lemma assign_attached (fuel : nat) (v : Z) :
  assign defs fuel i name v s
  = try_finally
      (property_set d i v;;
       observable.__execute_callbacks defs (call_observer defs fuel) fuel d i v
         (VList ls) (VList lr))
      (py_clear (VList lr)) s.
Proof.
  destruct Hatt as [(o & Ho & Hc) Hp Hs Hr Hgs Hgr _].
  unfold assign, py_setattr. rewrite Ho, Hc.
  unfold observable.__set__. rewrite Hs, Hr.
  unfold mbind, M_bind, bind. by rewrite Hgs, Hgr.
Qed.

(** With quiet subscribers and an empty guard the whole cycle runs. *)
Lemma execute_callbacks_quiet (fuel : nat) (v : Z) (L : list cb) (s1 : state) :
  heap s1 !! ls = Some L -> heap s1 !! lr = Some [] ->
  NoDup L -> (forall f, f ∈ L -> quiet defs f v) -> length L < fuel ->
  observable.__execute_callbacks defs (call_observer defs fuel) fuel d i v
    (VList ls) (VList lr) s1
  = (Ret tt, logged (calls i (observable_property d) v L) (store_list lr L s1)).
Proof.
  intros Hls Hlr Hnd Hq Hfuel.
  destruct Hatt as [_ _ _ _ _ _ Hapart].
  unfold observable.__execute_callbacks.
  destruct fuel as [|fuel']; [lia|].
  replace (S fuel') with (length L + S (fuel' - length L))%nat at 2 by lia.
  rewrite (for_observer_quiet defs d i v ls lr Hapart fuel' L [] [] [] s1);
    [|by rewrite app_nil_r|done..|by intros ? ? ?%elem_of_nil|done].
  simpl. apply for_observer_end.
  heap_lookup.
Qed.
End Assignment.



(** ** Re-entrant assignment *)

Section Reentry.
Context (defs : cb -> function).
Context (call : cb -> iid -> string -> Z -> M unit).

Lemma py_setattr_attached (s : state) (i : iid) (name : string) (d : descriptor)
    (ls lr : loc) (fuel : nat) (v : Z) :
  attached s i name d ls lr ->
  py_setattr defs call fuel i name v s
  = try_finally
      (property_set d i v;;
       observable.__execute_callbacks defs call fuel d i v (VList ls) (VList lr))
      (py_clear (VList lr)) s.
Proof.
  intros [(o & Ho & Hc) Hp Hs Hr Hgs Hgr _].
  unfold py_setattr. rewrite Ho, Hc.
  unfold observable.__set__. rewrite Hs, Hr.
  unfold mbind, M_bind, bind. by rewrite Hgs, Hgr.
Qed.

(** An assignment made while the first subscriber is in the guard: the value
    is stored, the guard check trips on that subscriber, and the [finally]
    clause empties the guard of the cycle that is still running. *)
Lemma py_setattr_reentrant (s : state) (i : iid) (name : string) (d : descriptor)
    (ls lr : loc) (n : nat) (v : Z) (f : cb) (rest g : list cb) (cls : string) :
  attached s i name d ls lr ->
  has_fset d = true ->
  heap s !! ls = Some (f :: rest) ->
  heap s !! lr = Some g ->
  f ∈ g ->
  class_name_of i s = (Ret cls, s) ->
  py_setattr defs call (S n) i name v s
  = (Exn (reentry_error defs f cls name), store_list lr [] (stored i name v s)).
Proof.
  intros Hatt Hset Hls Hlr Hin Hcls.
  rewrite (py_setattr_attached s i name d ls lr _ _ Hatt).
  pose proof (att_property _ _ _ _ _ _ Hatt) as Hp.
  unfold try_finally, property_set. rewrite Hset.
  unfold mbind, M_bind, bind, fset, modify, observable.__execute_callbacks.
  rewrite (for_observer_hit defs d i v ls lr call n 0 (f :: rest) g f cls); try done;
    [|by apply (class_name_of_frame s)].
  unfold reentry_error. rewrite Hp.
  destruct (fn_name (defs f)); done.
Qed.

(** A body that starts with an assignment fails as that assignment does. *)
Lemma exec_reassigns (fuel : nat) (name : string) (e : Z -> Z) (c : cmd)
    (i : iid) (v : Z) (x : exn) (s s' : state) :
  reassigns name e c ->
  py_setattr defs call fuel i name (e v) s = (Exn x, s') ->
  exec defs call fuel c i v s = (Exn x, s').
Proof.
  intros Hc Hset. induction Hc as [|c1 c2 _ IH]; simpl.
  - done.
  - unfold mbind, M_bind, bind. by rewrite IH.
Qed.
End Reentry.

Section Reach.
Context (defs : cb -> function).
Context (s : state) (i : iid) (name : string) (d : descriptor) (ls lr : loc).
Context (Hatt : attached s i name d ls lr).
Context (Hset : has_fset d = true).

(** After a run of quiet subscribers the loop reaches the next one: it is
    called on the store where those before it are recorded and the guard
    holds them and it. *)
Lemma execute_callbacks_reach (fuel : nat) (v : Z) (pre post : list cb) (f : cb)
    (s1 : state) :
  heap s1 !! ls = Some (pre ++ f :: post) -> heap s1 !! lr = Some [] ->
  NoDup pre -> f ∉ pre -> (forall g, g ∈ pre -> quiet defs g v) ->
  length pre < fuel ->
  observable.__execute_callbacks defs (call_observer defs fuel) fuel d i v
    (VList ls) (VList lr) s1
  = (call_observer defs fuel f i (observable_property d) v;;
     observable.for_observer defs (call_observer defs fuel) (fuel - S (length pre)) d i v
       (VList ls) (VList lr) (S (length pre)))
      (store_list lr (pre ++ [f]) (logged (calls i (observable_property d) v pre) s1)).
Proof.
  intros Hls Hlr Hnd Hf Hq Hfuel.
  destruct Hatt as [_ _ _ _ _ _ Hapart].
  unfold observable.__execute_callbacks.
  destruct fuel as [|cf]; [lia|].
  replace (observable.for_observer defs (call_observer defs (S cf)) (S cf))
    with (observable.for_observer defs (call_observer defs (S cf))
            (length pre + S (cf - length pre))) by (f_equal; lia).
  rewrite (for_observer_quiet defs d i v ls lr Hapart cf pre [] (f :: post) [] s1);
    [|done..|by intros ? ? ?%elem_of_nil|done].
  cbn [length app Nat.add].
  rewrite (for_observer_step defs d i v ls lr _ _ _ (pre ++ f :: post) pre f).
  - unfold mbind, M_bind, bind, logged, store_list, set_heap, set_trace; simpl.
    by rewrite insert_insert_eq.
  - heap_lookup.
  - by apply list_lookup_middle.
  - heap_lookup.
  - done.
Qed.

(** The store in which the subscriber that follows the quiet ones [pre] is
    called during the assignment of [v]. *)
Lemma assign_reach (fuel : nat) (v : Z) (pre post : list cb) (f : cb) :
  heap s !! ls = Some (pre ++ f :: post) -> heap s !! lr = Some [] ->
  NoDup pre -> f ∉ pre -> (forall g, g ∈ pre -> quiet defs g v) ->
  length pre < fuel ->
  assign defs fuel i name v s
  = try_finally
      (call_observer defs fuel f i name v;;
       observable.for_observer defs (call_observer defs fuel) (fuel - S (length pre)) d i v
         (VList ls) (VList lr) (S (length pre)))
      (py_clear (VList lr))
      (store_list lr (pre ++ [f]) (logged (calls i name v pre) (stored i name v s))).
Proof.
  intros Hls Hlr Hnd Hf Hq Hfuel.
  rewrite (assign_attached defs s i name d ls lr Hatt).
  pose proof (att_property _ _ _ _ _ _ Hatt) as Hp.
  unfold try_finally at 1. unfold property_set. rewrite Hset.
  unfold mbind at 1. unfold M_bind at 1. unfold bind at 1. unfold fset, modify.
  rewrite (execute_callbacks_reach fuel v pre post f); try done.
  rewrite Hp. reflexivity.
Qed.

(** The value is readable through the attribute once the setter has run. *)
Lemma getattr_stored (v : Z) (s1 : state) :
  classes s1 = classes s -> objs s1 = objs s ->
  backing s1 !! (i, name) = Some v ->
  getattr i name s1 = (Ret (VInt v), s1).
Proof.
  intros Hc Ho Hb.
  destruct Hatt as [(o & Hi & Hl) Hp _ _ _ _ _].
  unfold getattr. rewrite Ho, Hi, (class_lookup_frame s s1 _ _ Hc), Hl.
  unfold property_get, fget, mbind, M_bind, bind. by rewrite Hp, Hb.
Qed.

(** The cycle in which a subscriber assigns the attribute again: the
    assignment inside the callback stores its value and fails on the first
    subscriber of the list, which is in the guard; the error leaves the
    callback and the outer assignment. *)
Lemma assign_reassigning (fuel : nat) (v : Z) (pre post : list cb) (bad first : cb)
    (e : Z -> Z) (cls : string) :
  heap s !! ls = Some (pre ++ bad :: post) -> heap s !! lr = Some [] ->
  NoDup pre -> bad ∉ pre -> (forall g, g ∈ pre -> quiet defs g v) ->
  reassigns name e (fn_body (defs bad)) ->
  (pre ++ [bad]) !! 0%nat = Some first ->
  class_name_of i s = (Ret cls, s) ->
  S (length pre) < fuel ->
  assign defs fuel i name v s
  = (Exn (reentry_error defs first cls name),
     logged (calls i name v (pre ++ [bad])) (store_list lr [] (stored i name (e v) s))).
Proof.
  intros Hls Hlr Hnd Hbad Hq Hbody Hfirst Hcls Hfuel.
  rewrite (assign_reach fuel v pre post bad) by (done || lia).
  destruct fuel as [|[|n]]; [lia..|].
  set (s_call := store_list lr (pre ++ [bad]) (logged (calls i name v pre) (stored i name v s))).
  assert (Hin : call_observer defs (S (S n)) bad i name v s_call
                = (Exn (reentry_error defs first cls name),
                   store_list lr [] (stored i name (e v) (log (Called bad i name v) s_call)))).
  { cbn [call_observer]. unfold mbind at 1. unfold M_bind at 1. unfold bind at 1.
    unfold modify at 1.
    apply (exec_reassigns defs _ (S n) name e); [done|].
    assert (exists rest, pre ++ bad :: post = first :: rest) as [rest Hrest].
    { destruct pre as [|p pre']; simpl in *; injection Hfirst as <-; eauto. }
    apply (py_setattr_reentrant defs _ _ i name d ls lr n (e v) first rest (pre ++ [bad]) cls).
    - by apply (attached_frame s).
    - done.
    - rewrite <- Hrest. unfold s_call. heap_lookup by (destruct Hatt; done).
    - unfold s_call. heap_lookup.
    - by apply list_elem_of_lookup_2 in Hfirst.
    - by apply (class_name_of_frame s). }
  unfold try_finally, mbind, M_bind, bind. rewrite Hin.
  unfold py_clear, modify. f_equal.
  unfold s_call. store_eq.
Qed.
End Reach.

(** ** Whole cycles *)

Section Cycles.
Context (defs : cb -> function).
Context (s : state) (i : iid) (name : string) (d : descriptor) (ls lr : loc).
Context (Hatt : attached s i name d ls lr).
Context (Hset : has_fset d = true).

(** Quiet subscribers only: the assignment returns, having called each in
    the order of the list. *)
Lemma assign_quiet (fuel : nat) (v : Z) (L : list cb) :
  heap s !! ls = Some L -> heap s !! lr = Some [] ->
  NoDup L -> (forall f, f ∈ L -> quiet defs f v) -> length L < fuel ->
  assign defs fuel i name v s
  = (Ret tt, logged (calls i name v L) (store_list lr [] (stored i name v s))).
Proof.
  intros Hls Hlr Hnd Hq Hfuel.
  rewrite (assign_attached defs s i name d ls lr Hatt).
  pose proof (att_property _ _ _ _ _ _ Hatt) as Hp.
  unfold try_finally, property_set. rewrite Hset.
  unfold mbind, M_bind, bind, fset, modify.
  rewrite (execute_callbacks_quiet defs _ i name d ls lr
             (attached_frame s _ i name d ls lr eq_refl eq_refl Hatt) fuel v L);
    try done.
  rewrite Hp. unfold py_clear, modify. f_equal.
  store_eq.
Qed.

(** A subscriber that raises, after quiet ones: the cycle stops there, the
    exception reaches the assignment, and the guard is emptied. *)
Lemma assign_raising (fuel : nat) (v : Z) (pre post : list cb) (f : cb) (e : exn) :
  heap s !! ls = Some (pre ++ f :: post) -> heap s !! lr = Some [] ->
  NoDup pre -> f ∉ pre -> (forall g, g ∈ pre -> quiet defs g v) ->
  raises defs f v e ->
  length pre < fuel ->
  assign defs fuel i name v s
  = (Exn e, logged (calls i name v (pre ++ [f])) (store_list lr [] (stored i name v s))).
Proof.
  intros Hls Hlr Hnd Hf Hq He Hfuel.
  rewrite (assign_reach defs s i name d ls lr Hatt Hset fuel v pre post f) by done.
  destruct fuel as [|cf]; [lia|].
  unfold try_finally, mbind, M_bind, bind. rewrite He.
  unfold py_clear, modify. f_equal.
  store_eq.
Qed.
End Cycles.

Section Handled.
Context (defs : cb -> function).
Context (s : state) (i : iid) (name : string) (d : descriptor) (ls lr : loc).
Context (Hatt : attached s i name d ls lr).
Context (Hset : has_fset d = true).

End Handled.

(** The [finally] clause of a cycle leaves the guard empty, whatever the
    body did. *)
Lemma finally_clear_empties (body : M unit) (lr : loc) (s : state) :
  heap (after (try_finally body (py_clear (VList lr))) s) !! lr = Some [].
Proof.
  unfold after, try_finally, py_clear, modify.
  destruct (body s) as [r s']. simpl. apply lookup_insert_eq.
Qed.

(** ** Subscribing and unsubscribing *)

Lemma remove_first_absent (f : cb) (L : list cb) :
  f ∉ L -> remove_first f L = L.
Proof.
  induction L as [|g L IH]; [done|].
  intros [Hne Hin]%not_elem_of_cons. simpl.
  rewrite decide_False by done. by rewrite IH.
Qed.

(** [list.remove] takes out the first matching entry and nothing else. *)
Lemma remove_first_present (f : cb) (L : list cb) :
  f ∈ L ->
  exists l1 l2, L = l1 ++ f :: l2 /\ (f ∉ l1) /\ remove_first f L = l1 ++ l2.
Proof.
  induction L as [|g L IH]; [by intros ?%elem_of_nil|].
  intros Hin. simpl. destruct (decide (f = g)) as [->|Hne].
  - exists [], L. split; [done|]. split; [apply not_elem_of_nil|done].
  - apply elem_of_cons in Hin as [?|Hin]; [done|].
    destruct (IH Hin) as (l1 & l2 & -> & Hl1 & ->).
    exists (g :: l1), l2. split; [done|]. split; [|done].
    by apply not_elem_of_cons.
Qed.

Lemma remove_first_subseteq (f g : cb) (L : list cb) :
  g ∈ remove_first f L -> g ∈ L.
Proof.
  induction L as [|h L IH]; [done|]. simpl.
  destruct (decide (f = h)); [by right|].
  intros [->|Hin]%elem_of_cons; [left|right]. by apply IH.
Qed.

Lemma remove_first_NoDup (f : cb) (L : list cb) :
  NoDup L -> NoDup (remove_first f L) /\ f ∉ remove_first f L.
Proof.
  induction L as [|g L IH]; intros Hnd; simpl.
  - split; [done|apply not_elem_of_nil].
  - apply NoDup_cons in Hnd as [Hg Hnd].
    destruct (decide (f = g)) as [->|Hne]; [done|].
    destruct (IH Hnd) as [IH1 IH2]. split.
    + apply NoDup_cons. split; [|done].
      intros Hin. by apply Hg, (remove_first_subseteq f).
    + by apply not_elem_of_cons.
Qed.

Lemma hasattr_of_getattr (i : iid) (name : string) (v : pyval) (s : state) :
  getattr i name s = (Ret v, s) -> hasattr i name s = (Ret true, s).
Proof. intros H. unfold hasattr. by rewrite H. Qed.

Section Subscription.
Context (s : state) (i : iid) (name : string) (ls : loc) (L : list cb).
Context (Hsubs : getattr i (subscribers_name name) s = (Ret (VList ls), s)).
Context (Hls : heap s !! ls = Some L).

Lemma unsubscribe_present (f : cb) :
  f ∈ L -> unsubscribe f i name s = (Ret true, store_list ls (remove_first f L) s).
Proof.
  intros Hin. unfold unsubscribe, mbind, M_bind, bind.
  rewrite (hasattr_of_getattr _ _ _ _ Hsubs), Hsubs.
  unfold py_contains. rewrite (list_at_held _ _ _ Hls).
  rewrite bool_decide_eq_true_2 by done.
  unfold py_remove, modify. by rewrite (list_at_held _ _ _ Hls).
Qed.

Lemma unsubscribe_absent (f : cb) :
  f ∉ L -> unsubscribe f i name s = (Ret false, s).
Proof.
  intros Hin. unfold unsubscribe, mbind, M_bind, bind.
  rewrite (hasattr_of_getattr _ _ _ _ Hsubs), Hsubs.
  unfold py_contains. rewrite (list_at_held _ _ _ Hls).
  by rewrite bool_decide_eq_false_2.
Qed.

Lemma subscribe_list (f : cb) :
  subscribe f i name s = (Ret tt, store_list ls (remove_first f L ++ [f]) s).
Proof.
  unfold subscribe. cbv zeta. unfold mbind, M_bind, bind.
  destruct (decide (f ∈ L)) as [Hin|Hin].
  - rewrite (unsubscribe_present f Hin).
    rewrite (getattr_list_frame s (store_list ls (remove_first f L) s) i _ ls
               eq_refl eq_refl Hsubs).
    unfold py_append, modify. rewrite list_at_store_eq. by rewrite store_list_twice.
  - rewrite (unsubscribe_absent f Hin), Hsubs.
    unfold py_append, modify. rewrite (list_at_held _ _ _ Hls).
    by rewrite remove_first_absent.
Qed.
End Subscription.

Lemma entries_absent (f : cb) (L : list cb) : f ∉ L -> entries f L = 0%nat.
Proof.
  unfold entries. induction L as [|g L IH]; [done|].
  intros [Hne Hin]%not_elem_of_cons.
  rewrite filter_cons, decide_False by congruence. by apply IH.
Qed.

Lemma entries_app (f : cb) (L1 L2 : list cb) :
  entries f (L1 ++ L2) = (entries f L1 + entries f L2)%nat.
Proof. unfold entries. by rewrite filter_app, length_app. Qed.

Lemma remove_first_middle (f : cb) (pre post : list cb) :
  f ∉ pre -> remove_first f (pre ++ f :: post) = pre ++ post.
Proof.
  induction pre as [|g pre IH]; simpl.
  - intros _. by rewrite decide_True.
  - intros [Hne Hin]%not_elem_of_cons. rewrite decide_False by done. by rewrite IH.
Qed.

(** ** The names of the list attributes *)

Lemma list_ascii_app (a b : string) :
  String.list_ascii_of_string (a +:+ b)
  = String.list_ascii_of_string a ++ String.list_ascii_of_string b.
Proof. induction a as [|c a IH]; simpl; [done|]. by rewrite IH. Qed.

Lemma list_ascii_inj (a b : string) :
  String.list_ascii_of_string a = String.list_ascii_of_string b -> a = b.
Proof.
  intros H. rewrite <- (String.string_of_list_ascii_of_string a),
    <- (String.string_of_list_ascii_of_string b).
  by rewrite H.
Qed.

Lemma subscribers_name_inj (n m : string) :
  subscribers_name n = subscribers_name m -> n = m.
Proof.
  unfold subscribers_name. intros H. apply list_ascii_inj.
  apply (f_equal String.list_ascii_of_string) in H. rewrite !list_ascii_app in H.
  apply app_inv_head in H. by apply app_inv_tail in H.
Qed.

Lemma subscribers_recursions_ne (n m : string) :
  subscribers_name n ≠ recursions_name m.
Proof.
  unfold subscribers_name, recursions_name. intros H.
  apply (f_equal String.list_ascii_of_string) in H. rewrite !list_ascii_app in H.
  apply app_inv_head in H.
  apply (f_equal reverse) in H. rewrite !reverse_app in H. discriminate H.
Qed.

(** ** Class creation makes well-formed stores *)

Lemma good_dict_weaken (n : string) (D : gmap string pyval) :
  good_dict None D -> good_dict (Some n) D.
Proof.
  intros [H1 H2]. split; [|done].
  intros m v Hm. destruct (H1 m v Hm) as [?|?]; [done|by right].
Qed.

Lemma good_dict_insert_hidden (n key : string) (l : loc) (D : gmap string pyval) :
  good_dict (Some n) D ->
  key = subscribers_name n \/ key = recursions_name n ->
  good_dict (Some n) (<[key := VList l]> D).
Proof.
  intros [H1 H2] Hkey. split.
  - intros m v. destruct (decide (key = subscribers_name m)) as [Heq|Hne].
    + intros _. left. destruct Hkey as [->| ->].
      * by apply subscribers_name_inj in Heq as ->.
      * symmetry in Heq. by apply subscribers_recursions_ne in Heq.
    + rewrite lookup_insert_ne by done. intros Hm.
      destruct (H1 m v Hm) as [?|[d Hd]]; [by left|]. right. exists d.
      rewrite lookup_insert_ne; [done|].
      destruct (H2 m d Hd n) as [Hs Hr]. destruct Hkey as [->| ->]; congruence.
  - intros m d. destruct (decide (key = m)) as [->|Hne].
    + by rewrite lookup_insert_eq.
    + rewrite lookup_insert_ne by done. apply H2.
Qed.

Lemma good_dict_bind (n : string) (d : descriptor) (D : gmap string pyval) :
  good_dict (Some n) D -> plain_name n ->
  good_dict None (<[n := VObs d]> D).
Proof.
  intros [H1 H2] Hn. split.
  - intros m v. rewrite lookup_insert_ne by (apply Hn). intros Hm. right.
    destruct (H1 m v Hm) as [[= ->]|[d' Hd']].
    + exists d. apply lookup_insert_eq.
    + destruct (decide (n = m)) as [->|Hne].
      * exists d. apply lookup_insert_eq.
      * exists d'. by rewrite lookup_insert_ne.
  - intros m d'. destruct (decide (n = m)) as [->|Hne].
    + done.
    + rewrite lookup_insert_ne by done. apply H2.
Qed.

Lemma wf_empty : wf empty_state.
Proof. split; intros ? ? ; simpl; by rewrite ?lookup_empty. Qed.

Lemma new_object_wf (i : iid) (cls : string) (s : state) :
  wf s -> wf (after (new_object i cls) s).
Proof.
  intros [Hc Ho]. split; [done|]. simpl.
  intros j o n. destruct (decide (i = j)) as [->|Hne].
  - rewrite lookup_insert_eq. by intros [= <-].
  - rewrite lookup_insert_ne by done. apply Ho.
Qed.

Lemma class_setattr_new_list_pending (k n key : string) (s : state) :
  wf_pending (Some (k, n)) s ->
  key = subscribers_name n \/ key = recursions_name n ->
  wf_pending (Some (k, n)) (after (observable.class_setattr_new_list k key) s).
Proof.
  intros [Hc Ho] Hkey. unfold after, observable.class_setattr_new_list, modify. simpl.
  destruct (classes s !! k) as [c|] eqn:Hk; [|done].
  split; [|done]. simpl. intros k' c'.
  destruct (decide (k = k')) as [<-|Hne].
  - rewrite lookup_insert_eq. intros [= <-]. simpl.
    destruct (Hc k c Hk) as [Hg Hm]. split; [|done].
    rewrite decide_True in Hg by done. by apply good_dict_insert_hidden.
  - rewrite lookup_insert_ne by done. intros Hk'.
    destruct (Hc k' c' Hk') as [Hg Hm]. by rewrite decide_False in Hg by done.
Qed.

Lemma wf_pending_start (k n : string) (s : state) :
  wf s -> wf_pending (Some (k, n)) s.
Proof.
  intros [Hc Ho]. split; [|done]. intros k' c' Hk'.
  destruct (Hc k' c' Hk') as [Hg Hm]. split; [|done].
  destruct (decide (k = k')); [by apply good_dict_weaken|done].
Qed.

Lemma set_name_pending (self : descriptor) (k n : string) (s : state) :
  wf s ->
  exists s',
    observable.__set_name__ self k n s
    = (Ret (Descriptor n (subscribers_name n) (recursions_name n)
              (has_fset self) (has_fdel self)), s')
    /\ wf_pending (Some (k, n)) s'.
Proof.
  intros Hwf%(wf_pending_start k n).
  unfold observable.__set_name__. cbv zeta. cbn [subscribers recursions].
  unfold mbind, M_bind, bind, observable.class_hasattr at 1.
  destruct (negb _).
  - unfold observable.class_hasattr.
    pose proof (class_setattr_new_list_pending k n (subscribers_name n) s Hwf
                  (or_introl eq_refl)) as Hwf1.
    unfold after in Hwf1.
    destruct (observable.class_setattr_new_list k (subscribers_name n) s) as [[[]|?|] s1] eqn:H1;
      try (unfold observable.class_setattr_new_list, modify in H1; discriminate H1).
    simpl in Hwf1. destruct (negb _).
    + pose proof (class_setattr_new_list_pending k n (recursions_name n) s1 Hwf1
                    (or_intror eq_refl)) as Hwf2.
      unfold after in Hwf2.
      destruct (observable.class_setattr_new_list k (recursions_name n) s1) as [[[]|?|] s2] eqn:H2;
        try (unfold observable.class_setattr_new_list, modify in H2; discriminate H2).
      eexists. split; [reflexivity|done].
    + eexists. split; [reflexivity|done].
  - unfold observable.class_hasattr, mret, M_ret, ret. destruct (negb _).
    + pose proof (class_setattr_new_list_pending k n (recursions_name n) s Hwf
                    (or_intror eq_refl)) as Hwf2.
      unfold after in Hwf2.
      destruct (observable.class_setattr_new_list k (recursions_name n) s) as [[[]|?|] s2] eqn:H2;
        try (unfold observable.class_setattr_new_list, modify in H2; discriminate H2).
      eexists. split; [reflexivity|done].
    + eexists. split; [reflexivity|done].
Qed.

Lemma bind_descriptor_wf (k n : string) (d : descriptor) (s : state) :
  wf_pending (Some (k, n)) s -> plain_name n ->
  wf (match classes s !! k with
      | Some c =>
          set_classes (<[k := Class (cls_name c) (cls_mro c) (<[n := VObs d]> (cls_dict c))]>
                         (classes s)) s
      | None => s
      end).
Proof.
  intros [Hc Ho] Hn.
  destruct (classes s !! k) as [c|] eqn:Hk.
  - split; [|done]. simpl. intros k' c'.
    destruct (decide (k = k')) as [<-|Hne].
    + rewrite lookup_insert_eq. intros [= <-]. simpl.
      destruct (Hc k c Hk) as [Hg Hm]. split; [|done].
      rewrite decide_True in Hg by done. by apply good_dict_bind.
    + rewrite lookup_insert_ne by done. intros Hk'.
      destruct (Hc k' c' Hk') as [Hg Hm]. by rewrite decide_False in Hg by done.
  - split; [|done]. intros k' c' Hk'.
    destruct (Hc k' c' Hk') as [Hg Hm]. split; [|done].
    destruct (decide (k = k')) as [<-|Hne]; [congruence|done].
Qed.

Lemma set_names_wf (k : string) (members : list (string * member)) :
  forall s, wf s -> Forall (fun m => plain_name m.1) members ->
  exists s', set_names k members s = (Ret tt, s') /\ wf s'.
Proof.
  induction members as [|[n m] rest IH]; intros s Hwf Hplain.
  - by exists s.
  - apply Forall_cons in Hplain as [Hn Hrest]. simpl in Hn.
    destruct m as [a b|z]; simpl.
    + destruct (set_name_pending (Descriptor "" "" "" a b) k n s Hwf) as (s1 & H1 & Hwf1).
      unfold mbind, M_bind, bind. rewrite H1. unfold modify at 1.
      apply IH; [|done]. by apply bind_descriptor_wf.
    + by apply IH.
Qed.

Lemma define_class_wf (k : string) (bases : list string)
    (members : list (string * member)) (s : state) :
  wf s -> Forall (fun m => plain_name m.1) members ->
  exists s', define_class k bases members s = (Ret tt, s') /\ wf s'.
Proof.
  intros [Hc Ho] Hplain. unfold define_class, mbind, M_bind, bind, modify at 1.
  apply set_names_wf; [|done].
  split; [|done]. simpl. intros k' c'.
  destruct (decide (k = k')) as [<-|Hne].
  - rewrite lookup_insert_eq. intros [= <-]. simpl. split; [|left].
    assert (Hkeys : forall key v,
              (list_to_map (prod_map id member_value <$> members) : gmap string pyval)
                !! key = Some v -> plain_name key).
    { intros key v Hkey%elem_of_list_to_map_2.
      apply list_elem_of_fmap in Hkey as ([n m] & [= -> ->] & Hin).
      rewrite Forall_forall in Hplain. apply (Hplain _ Hin). }
    split.
    + intros m v Hm. destruct (Hkeys _ _ Hm m) as [? _]. done.
    + intros m d Hm. by apply (Hkeys _ _ Hm).
  - rewrite lookup_insert_ne by done. apply Hc.
Qed.

Lemma world_wf : wf world.
Proof.
  destruct (define_class_wf "Temperature" [] [("celsius", MObservable true true)]
              empty_state wf_empty) as (s' & Hs' & Hwf).
  { apply Forall_singleton. intros m. split; intros H; discriminate H. }
  assert (world = after (new_object 2%nat "Temperature")
                    (after (new_object 1%nat "Temperature") s')) as ->.
  { unfold world, after, mbind, M_bind, bind. by rewrite Hs'. }
  by apply new_object_wf, new_object_wf.
Qed.

(** The scenario world: [celsius] is attached to both instances, through the
    same two list objects. *)
Lemma world_attached (i : iid) :
  i = 1%nat \/ i = 2%nat -> attached world i "celsius" celsius 0%nat 1%nat.
Proof.
  intros [-> | ->]; (split; [by eexists|done..]).
Qed.

(** ** Subscribing keeps a store well-formed

    [subscribe] and [unsubscribe] change list objects only: the classes and
    the instance dictionaries stay as they were. *)

Lemma wf_frame (s s' : state) :
  classes s' = classes s -> objs s' = objs s -> wf s -> wf s'.
Proof. intros Hc Ho [H1 H2]. split; rewrite ?Hc, ?Ho; done. Qed.

Lemma getattr_pure (i : iid) (name : string) (s : state) :
  snd (getattr i name s) = s.
Proof.
  unfold getattr, property_get, fget, mbind, M_bind, bind, mret, M_ret, ret.
  repeat case_match; simplify_eq; done.
Qed.

Lemma class_name_of_snd (i : iid) (s : state) : snd (class_name_of i s) = s.
Proof. unfold class_name_of. repeat case_match; done. Qed.

Lemma unsubscribe_frame (f : cb) (i : iid) (name : string) (s : state) :
  classes (after (unsubscribe f i name) s) = classes s
  /\ objs (after (unsubscribe f i name) s) = objs s.
Proof.
  unfold after, unsubscribe, hasattr. cbv zeta. unfold mbind, M_bind, bind.
  pose proof (getattr_pure i (subscribers_name name) s) as Hg.
  pose proof (class_name_of_snd i s) as Hn.
  destruct (getattr i (subscribers_name name) s) as [[v|e|] s0] eqn:Hget;
    simpl in Hg; subst s0.
  - rewrite Hget. destruct v as [z|l|d]; simpl; try done.
    unfold mret, M_ret, ret. by destruct (bool_decide _).
  - destruct e; try done.
    destruct (class_name_of i s) as [[c|e|] s0]; simpl in Hn; by subst s0.
  - done.
Qed.

Lemma subscribe_frame (f : cb) (i : iid) (name : string) (s : state) :
  classes (after (subscribe f i name) s) = classes s
  /\ objs (after (subscribe f i name) s) = objs s.
Proof.
  pose proof (unsubscribe_frame f i name s) as [Hc Ho].
  unfold after, subscribe in *. cbv zeta. unfold mbind, M_bind, bind.
  destruct (unsubscribe f i name s) as [[b|e|] s0]; simpl in Hc, Ho; try done.
  pose proof (getattr_pure i (subscribers_name name) s0) as Hg.
  destruct (getattr i (subscribers_name name) s0) as [[v|e|] s1]; simpl in Hg; subst s1;
    try done.
  by destruct v.
Qed.


Lemma unsubscribe_wf (f : cb) (i : iid) (name : string) (s : state) :
  wf s -> wf (after (unsubscribe f i name) s).
Proof. destruct (unsubscribe_frame f i name s). by apply wf_frame. Qed.

(** ** Names that are not declared observable *)

Lemma mro_lookup_none (s : state) (mro : list string) (key : string) :
  (forall k c, k ∈ mro -> classes s !! k = Some c -> cls_dict c !! key = None) ->
  mro_lookup s mro key = None.
Proof.
  induction mro as [|k rest IH]; intros H; simpl; [done|].
  destruct (classes s !! k) as [c|] eqn:Hk.
  - rewrite (H k c (list_elem_of_here _ _) Hk). apply IH.
    intros k' c' Hin. apply H. by right.
  - apply IH. intros k' c' Hin. apply H. by right.
Qed.

Section Undeclared.
Context (s : state) (i : iid) (o : object) (name cls : string).
Context (Hwf : wf s).
Context (Ho : objs s !! i = Some o).
Context (Hundeclared : declared s (obj_class o) name = false).
Context (Hcls : class_name_of i s = (Ret cls, s)).

Lemma undeclared_in_mro (c : class) (k : string) :
  classes s !! obj_class o = Some c -> k ∈ cls_mro c ->
  binds_observable s k name = false.
Proof.
  intros Hc Hk. unfold declared in Hundeclared. rewrite Hc in Hundeclared.
  destruct (binds_observable s k name) eqn:Hb; [|done].
  assert (existsb (fun k => binds_observable s k name) (cls_mro c) = true) as Hex.
  { apply existsb_exists. exists k. split; [by apply list_elem_of_In|done]. }
  congruence.
Qed.

Lemma hasattr_undeclared :
  hasattr i (subscribers_name name) s = (Ret false, s).
Proof.
  destruct Hwf as [Hclasses Hobjs].
  unfold hasattr, getattr. rewrite Ho.
  assert (class_lookup s (obj_class o) (subscribers_name name) = None) as ->.
  { unfold class_lookup. destruct (classes s !! obj_class o) as [c|] eqn:Hc; [|done].
    apply mro_lookup_none. intros k ck Hk Hck.
    destruct (cls_dict ck !! subscribers_name name) as [v|] eqn:Hv; [|done].
    destruct (Hclasses k ck Hck) as [[H1 _] _].
    destruct (H1 name v Hv) as [[=]|[d Hd]].
    pose proof (undeclared_in_mro c k Hc Hk) as Hb.
    unfold binds_observable in Hb. by rewrite Hck, Hd in Hb. }
  by rewrite (proj1 (Hobjs i o name Ho)).
Qed.

Lemma unsubscribe_undeclared (f : cb) :
  unsubscribe f i name s
  = (Exn (ObservablePropertyError (not_observable_msg name cls)), s).
Proof.
  unfold unsubscribe. cbv zeta. unfold mbind, M_bind, bind.
  by rewrite hasattr_undeclared, Hcls.
Qed.

Lemma subscribe_undeclared (f : cb) :
  subscribe f i name s
  = (Exn (ObservablePropertyError (not_observable_msg name cls)), s).
Proof.
  unfold subscribe, mbind, M_bind, bind. by rewrite unsubscribe_undeclared.
Qed.

Lemma notify_undeclared (defs : cb -> function) (fuel : nat) :
  notify defs fuel i name s
  = (Exn (ObservablePropertyError (not_observable_msg name cls)), s).
Proof.
  destruct Hwf as [Hclasses _].
  unfold notify, Observable._observable_notify, Observable.vars_of_class.
  unfold mbind, M_bind, bind. rewrite Ho.
  destruct (classes s !! obj_class o) as [c|] eqn:Hc.
  - destruct (Hclasses _ c Hc) as [_ Hself].
    pose proof (undeclared_in_mro c _ Hc Hself) as Hb.
    unfold binds_observable in Hb. rewrite Hc in Hb.
    destruct (cls_dict c !! name) as [[z|l|d]|]; try done; by rewrite Hcls.
  - rewrite lookup_empty. by rewrite Hcls.
Qed.
End Undeclared.

(** ** The lists live on the class *)



(** [del instance.name] on an attached attribute of a well-formed store:
    whether or not the deleter removes the value, the statement ends with
    [AttributeError], because the lists it then deletes from the instance are
    bound in the class; classes, objects and list objects are as before. *)
Lemma delete_attr_raises (s : state) (i : iid) (name : string) (d : descriptor)
    (ls lr : loc) :
  wf s -> attached s i name d ls lr ->
  exists s', delete_attr i name s = (Exn AttributeError, s')
             /\ classes s' = classes s /\ objs s' = objs s /\ heap s' = heap s.
Proof.
  intros [_ Hobjs] [(o & Ho & Hl) Hp Hs Hr Hgs Hgr Hap].
  unfold delete_attr, py_delattr. rewrite Ho, Hl.
  unfold observable.__delete__, property_delete, mbind, M_bind, bind.
  destruct (has_fdel d); [|by exists s].
  unfold fdel. destruct (backing s !! (i, observable_property d)); [|by exists s].
  unfold delattr. simpl. rewrite Ho, Hs.
  rewrite (proj1 (Hobjs i o name Ho)). by eexists.
Qed.

(** * The scenarios of the specification, evaluated *)

(** [log] subscribed to [celsius]: the assignments of 20 and 25 are
    notified; after [unsubscribe] the assignment of 30 is not. *)
Example scenario_log :
  let r := (subscribe log_cb 1%nat "celsius";;
            assign demo_defs 3 1%nat "celsius" 20%Z;;
            assign demo_defs 3 1%nat "celsius" 25%Z;;
            unsubscribe log_cb 1%nat "celsius";;
            assign demo_defs 3 1%nat "celsius" 30%Z) world in
  fst r = Ret tt
  /\ trace (snd r) = [Called log_cb 1%nat "celsius" 20%Z; Called log_cb 1%nat "celsius" 25%Z]
  /\ fst (getattr 1%nat "celsius" (snd r)) = Ret (VInt 30%Z).
Proof. vm_compute. done. Qed.

(** A callback that handles the error of its own re-entrant assignment: the
    assignment of 10 returns, every subscriber was called, and the attribute
    holds the 11 of the inner assignment. *)
Example scenario_handled_reentry :
  let r := (subscribe log_cb 1%nat "celsius";;
            subscribe careful_cb 1%nat "celsius";;
            subscribe audit_cb 1%nat "celsius";;
            assign demo_defs 5 1%nat "celsius" 10%Z) world in
  fst r = Ret tt
  /\ trace (snd r) = calls 1%nat "celsius" 10%Z [log_cb; careful_cb; audit_cb]
  /\ fst (getattr 1%nat "celsius" (snd r)) = Ret (VInt 11%Z).
Proof. vm_compute. done. Qed.

(** A callback that unsubscribes itself while it is notified: the list
    shrinks under the iterator, and the subscriber that followed it is
    passed over in that cycle. *)
Example scenario_unsubscribe_during_cycle :
  let r := (subscribe once_cb 1%nat "celsius";;
            subscribe log_cb 1%nat "celsius";;
            subscribe audit_cb 1%nat "celsius";;
            assign demo_defs 4 1%nat "celsius" 10%Z) world in
  fst r = Ret tt
  /\ trace (snd r) = calls 1%nat "celsius" 10%Z [once_cb; audit_cb]
  /\ heap (snd r) !! 0%nat = Some [log_cb; audit_cb].
Proof. vm_compute. done. Qed.

(** A subscriber that reads the attribute when it is called sees the value
    being assigned, and so does a reader after the failed assignment. *)
Example probe_reads_the_new_value :
  let s := after (subscribe probe_cb 1%nat "celsius") world in
  let r := assign demo_defs 3 1%nat "celsius" 20%Z s in
  fst r = Exn (UserError "probe")
  /\ trace (snd r) = [Called probe_cb 1%nat "celsius" 20%Z; Observed 1%nat "celsius" 20%Z]
  /\ fst (getattr 1%nat "celsius" (snd r)) = Ret (VInt 20%Z).
Proof. vm_compute. done. Qed.

(** * The properties *)




(** C2, evaluated on two instances of one class.  The subscriber list and
    the guard are bound in the class by [__set_name__], so they are not kept
    per instance: a callback subscribed through the first instance is called
    when the attribute of the second one is assigned, and a callback notified
    for the first instance that assigns the attribute of the second one is
    refused as re-entrant. *)
Theorem lists_are_shared_by_the_instances_of_a_class :
  let s := after (subscribe log_cb 1%nat "celsius") world in
  let r := assign demo_defs 3 2%nat "celsius" 20%Z s in
  let s' := after (subscribe mirror_cb 1%nat "celsius") world in
  fst r = Ret tt
  /\ trace (snd r) = [Called log_cb 2%nat "celsius" 20%Z]
  /\ fst (assign demo_defs 3 1%nat "celsius" 20%Z s')
     = Exn (ObservablePropertyError
              "'mirror' is not allowed to modify observable property 'Temperature.celsius'").
Proof. vm_compute. done. Qed.

(** C3, as the code has it.  On a subscriber list without repetition whose
    first subscriber has a [__name__], for an attribute with a setter and
    outside any running cycle: a subscriber [bad] that, after subscribers
    that return and change nothing, starts by assigning the attribute it is
    being notified about and does not handle the error.  The assignment
    inside the callback stores its value and fails with
    [ObservablePropertyError], naming the first subscriber of the list; the
    error leaves the callback, so the outer assignment raises it too, the
    subscribers after [bad] are not called, the guard is emptied and the
    value of the inner assignment is in the attribute; once [bad] is
    unsubscribed, an assignment to subscribers that return and change nothing
    returns and notifies the subscribers that remain. *)
Theorem reentrant_assignment_fails_and_propagates (defs : cb -> function)
    (s : state) (i : iid) (name : string) (d : descriptor) (ls lr : loc)
    (pre post : list cb) (bad first : cb) (observer cls : string)
    (e : Z -> Z) (v : Z) (fuel : nat) :
  attached s i name d ls lr ->
  has_fset d = true ->
  heap s !! ls = Some (pre ++ bad :: post) ->
  heap s !! lr = Some [] ->
  NoDup (pre ++ bad :: post) ->
  (forall g, g ∈ pre -> quiet defs g v) ->
  reassigns name e (fn_body (defs bad)) ->
  (pre ++ [bad]) !! 0%nat = Some first ->
  fn_name (defs first) = Some observer ->
  class_name_of i s = (Ret cls, s) ->
  S (length pre) < fuel ->
  let err := ObservablePropertyError (not_allowed_msg observer cls name) in
  let s_in := log (Called bad i name v)
                (store_list lr (pre ++ [bad])
                   (logged (calls i name v pre) (stored i name v s))) in
  let s1 := logged (calls i name v (pre ++ [bad]))
              (store_list lr [] (stored i name (e v) s)) in
  assign defs (fuel - 1) i name (e v) s_in
  = (Exn err, store_list lr [] (stored i name (e v) s_in))
  /\ assign defs fuel i name v s = (Exn err, s1)
  /\ getattr i name s1 = (Ret (VInt (e v)), s1)
  /\ heap s1 !! lr = Some []
  /\ (forall (w : Z) (fuel' : nat),
        (forall g, g ∈ pre ++ post -> quiet defs g w) ->
        length (pre ++ post) < fuel' ->
        (unsubscribe bad i name;; assign defs fuel' i name w) s1
        = (Ret tt, logged (calls i name w (pre ++ post))
                     (store_list lr []
                        (stored i name w (store_list ls (pre ++ post) s1))))).
Proof.
  intros Hatt Hset Hls Hlr Hnd Hq Hbody Hfirst Hname Hcls Hfuel err s_in s1.
  apply NoDup_app in Hnd as (Hpre & Hsep & Hpost).
  assert (Hbad : bad ∉ pre) by (intros Hin; apply (Hsep bad Hin); left).
  assert (Hap : ls ≠ lr) by (destruct Hatt; done).
  assert (Herr : reentry_error defs first cls name = err).
  { unfold reentry_error. by rewrite Hname. }
  split; [|split; [|split; [|split]]].
  - destruct fuel as [|[|n]]; [lia..|]. cbn [Nat.sub].
    assert (exists rest, pre ++ bad :: post = first :: rest) as [rest Hrest].
    { destruct pre as [|p pre']; simpl in *; injection Hfirst as <-; eauto. }
    rewrite <- Herr. unfold assign.
    apply (py_setattr_reentrant defs _ _ i name d ls lr n (e v) first rest (pre ++ [bad]) cls).
    + by apply (attached_frame s).
    + done.
    + rewrite <- Hrest. unfold s_in. heap_lookup.
    + unfold s_in. heap_lookup.
    + by apply list_elem_of_lookup_2 in Hfirst.
    + by apply (class_name_of_frame s).
  - rewrite <- Herr.
    by apply (assign_reassigning defs s i name d ls lr Hatt Hset fuel v pre post bad first e cls).
  - apply (getattr_stored s i name d ls lr Hatt); [done..|].
    unfold s1. heap_lookup.
  - unfold s1. heap_lookup.
  - intros w fuel' Hqw Hfuel'.
    assert (Hatt1 : attached s1 i name d ls lr) by (by apply (attached_frame s)).
    assert (Hls1 : heap s1 !! ls = Some (pre ++ bad :: post)).
    { unfold s1. heap_lookup. }
    unfold mbind, M_bind, bind.
    rewrite (unsubscribe_present s1 i name ls (pre ++ bad :: post)
               (att_subs _ _ _ _ _ _ Hatt1) Hls1 bad)
      by (apply elem_of_app; right; left).
    rewrite remove_first_middle by done.
    apply (assign_quiet defs _ i name d ls lr); try done.
    + by apply (attached_frame s1).
    + heap_lookup.
    + unfold s1. heap_lookup.
    + apply NoDup_app. split; [done|]. apply NoDup_cons in Hpost as [_ Hpost].
      split; [|done]. intros g Hg Hg'. apply (Hsep g Hg). by right.
Qed.

Lemma reentrant_assignment_fails_and_propagates_witness :
  let s := after (subscribe log_cb 1%nat "celsius";;
                  subscribe bad_cb 1%nat "celsius";;
                  subscribe audit_cb 1%nat "celsius") world in
  let err := ObservablePropertyError
               "'log' is not allowed to modify observable property 'Temperature.celsius'" in
  let s1 := logged (calls 1%nat "celsius" 10%Z [log_cb; bad_cb])
              (store_list 1%nat [] (stored 1%nat "celsius" 11%Z s)) in
  assign demo_defs 3 1%nat "celsius" 10%Z s = (Exn err, s1)
  /\ getattr 1%nat "celsius" s1 = (Ret (VInt 11%Z), s1)
  /\ heap s1 !! 1%nat = Some [].
Proof.
  intros s err s1.
  assert (Hatt : attached s 1%nat "celsius" celsius 0%nat 1%nat).
  { apply (attached_frame world); [reflexivity..|]. apply world_attached. by left. }
  assert (Hnd : NoDup [log_cb; bad_cb; audit_cb]).
  { repeat (apply NoDup_cons; split;
            [intros H; repeat (apply elem_of_cons in H as [H|H]; [discriminate H|]);
             by apply elem_of_nil in H|]).
    apply NoDup_nil_2. }
  assert (Hq : forall g, g ∈ [log_cb] -> quiet demo_defs g 10%Z).
  { intros g ->%list_elem_of_singleton. intros ? ? ? ?. reflexivity. }
  pose proof (reentrant_assignment_fails_and_propagates demo_defs s 1%nat "celsius"
                celsius 0%nat 1%nat [log_cb] [audit_cb] bad_cb log_cb "log" "Temperature"
                (fun v => (v + 1)%Z) 10%Z 3 Hatt eq_refl eq_refl eq_refl Hnd Hq
                (reassigns_here "celsius" _) eq_refl eq_refl eq_refl
                ltac:(simpl; lia)) as (_ & H2 & H3 & H4 & _).
  exact (conj H2 (conj H3 H4)).
Defined.

(** C3, as the specification words it, on its own scenario: with [bad]
    subscribed, the assignment of 10 does not complete but raises, the
    attribute then holds 11, and the following assignment of 40 raises as
    well. *)
Lemma reentrant_assignment_counterexample :
  let s := after (subscribe bad_cb 1%nat "celsius") world in
  let err := ObservablePropertyError
               "'bad' is not allowed to modify observable property 'Temperature.celsius'" in
  let r := assign demo_defs 5 1%nat "celsius" 10%Z s in
  fst r = Exn err
  /\ fst (getattr 1%nat "celsius" (snd r)) = Ret (VInt 11%Z)
  /\ fst (assign demo_defs 5 1%nat "celsius" 40%Z (snd r)) = Exn err.
Proof. vm_compute. done. Qed.

(** C4. [subscribe] first removes an existing subscription of the callback
    and then appends it: on a subscriber list without repetition the call
    returns, the new list is the old one without the callback followed by the
    callback, it holds exactly one entry for the callback, that entry is the
    last one, and the list is again without repetition. *)
Theorem subscribe_keeps_one_entry_at_end (s : state) (i : iid) (name : string)
    (d : descriptor) (ls lr : loc) (L : list cb) (f : cb) :
  attached s i name d ls lr ->
  heap s !! ls = Some L ->
  NoDup L ->
  subscribe f i name s = (Ret tt, store_list ls (remove_first f L ++ [f]) s)
  /\ entries f (remove_first f L ++ [f]) = 1%nat
  /\ last (remove_first f L ++ [f]) = Some f
  /\ NoDup (remove_first f L ++ [f]).
Proof.
  intros Hatt Hls Hnd.
  destruct (remove_first_NoDup f L Hnd) as [Hnd' Hout].
  split; [|split; [|split]].
  - apply subscribe_list; [apply (att_subs _ _ _ _ _ _ Hatt)|done].
  - rewrite entries_app, (entries_absent _ _ Hout).
    unfold entries. simpl. rewrite filter_cons, decide_True by done. done.
  - apply last_snoc.
  - apply NoDup_app. split; [done|]. split; [|apply NoDup_singleton].
    intros g Hg ->%list_elem_of_singleton. done.
Qed.

Lemma subscribe_keeps_one_entry_at_end_witness :
  subscribe log_cb 1%nat "celsius"
    (after (subscribe log_cb 1%nat "celsius";; subscribe audit_cb 1%nat "celsius") world)
  = (Ret tt,
     store_list 0%nat [audit_cb; log_cb]
       (after (subscribe log_cb 1%nat "celsius";; subscribe audit_cb 1%nat "celsius") world)).
Proof.
  apply (subscribe_keeps_one_entry_at_end _ 1%nat "celsius" celsius 0%nat 1%nat
           [log_cb; audit_cb] log_cb).
  - apply (attached_frame world); [reflexivity..|]. apply world_attached. by left.
  - reflexivity.
  - apply NoDup_cons. split; [|apply NoDup_singleton].
    intros H%list_elem_of_singleton. discriminate H.
Defined.

(** C5. The recursion guard is emptied at the end of every notification
    cycle, whether the cycle ends normally or not.  For any callbacks and any
    outcome, the guard list is empty after an assignment and after a manual
    notification; and when an assignment has failed because a subscriber
    raised, a later assignment whose subscribers all return runs its whole
    cycle. *)
Theorem guard_is_emptied_after_every_cycle (defs : cb -> function) (s : state)
    (i : iid) (name : string) (d : descriptor) (ls lr : loc) :
  attached s i name d ls lr ->
  (forall fuel v, heap (after (assign defs fuel i name v) s) !! lr = Some [])
  /\ (forall call fuel v,
        heap (after (observable._run_observers defs call fuel d i v) s) !! lr = Some [])
  /\ (forall fuel (v w : Z) (pre post : list cb) (f : cb) (e : exn),
        has_fset d = true ->
        heap s !! ls = Some (pre ++ f :: post) ->
        heap s !! lr = Some [] ->
        NoDup (pre ++ f :: post) ->
        (forall g, g ∈ pre -> quiet defs g v) ->
        raises defs f v e ->
        (forall g, g ∈ pre ++ f :: post -> quiet defs g w) ->
        length (pre ++ f :: post) < fuel ->
        let s1 := after (assign defs fuel i name v) s in
        assign defs fuel i name v s
        = (Exn e, logged (calls i name v (pre ++ [f])) (store_list lr [] (stored i name v s)))
        /\ assign defs fuel i name w s1
           = (Ret tt, logged (calls i name w (pre ++ f :: post))
                        (store_list lr [] (stored i name w s1)))).
Proof.
  intros Hatt. split; [|split].
  - intros fuel v. unfold after.
    rewrite (assign_attached defs s i name d ls lr Hatt).
    apply finally_clear_empties.
  - intros call fuel v. unfold observable._run_observers.
    rewrite (att_subscribers _ _ _ _ _ _ Hatt), (att_recursions _ _ _ _ _ _ Hatt).
    unfold after, mbind, M_bind, bind.
    rewrite (att_subs _ _ _ _ _ _ Hatt), (att_recs _ _ _ _ _ _ Hatt).
    apply finally_clear_empties.
  - intros fuel v w pre post f e Hset Hls Hlr Hnd Hq He Hqw Hfuel s1.
    apply NoDup_app in Hnd as (Hpre & Hsep & Hpost).
    assert (Hf : f ∉ pre) by (intros Hin; apply (Hsep f Hin); left).
    assert (Hfail : assign defs fuel i name v s
              = (Exn e, logged (calls i name v (pre ++ [f]))
                          (store_list lr [] (stored i name v s)))).
    { apply (assign_raising defs s i name d ls lr Hatt Hset fuel v pre post f e);
        try done. rewrite length_app in Hfuel. simpl in Hfuel. lia. }
    split; [done|].
    unfold s1, after. rewrite Hfail. cbn [snd].
    apply (assign_quiet defs _ i name d ls lr); try done.
    + by apply (attached_frame s).
    + heap_lookup by (destruct Hatt; done).
    + heap_lookup.
    + apply NoDup_app. done.
Qed.

Lemma guard_is_emptied_after_every_cycle_witness :
  let s := after (subscribe log_cb 1%nat "celsius";;
                  subscribe check_cb 1%nat "celsius";;
                  subscribe audit_cb 1%nat "celsius") world in
  let s1 := after (assign demo_defs 4 1%nat "celsius" (-5)%Z) s in
  assign demo_defs 4 1%nat "celsius" (-5)%Z s
  = (Exn (UserError "negative"),
     logged (calls 1%nat "celsius" (-5)%Z [log_cb; check_cb])
       (store_list 1%nat [] (stored 1%nat "celsius" (-5)%Z s)))
  /\ assign demo_defs 4 1%nat "celsius" 30%Z s1
     = (Ret tt, logged (calls 1%nat "celsius" 30%Z [log_cb; check_cb; audit_cb])
                  (store_list 1%nat [] (stored 1%nat "celsius" 30%Z s1))).
Proof.
  intros s s1.
  assert (Hatt : attached s 1%nat "celsius" celsius 0%nat 1%nat).
  { apply (attached_frame world); [reflexivity..|]. apply world_attached. by left. }
  apply (guard_is_emptied_after_every_cycle demo_defs s 1%nat "celsius" celsius
           0%nat 1%nat Hatt) with (pre := [log_cb]) (post := [audit_cb]).
  - reflexivity.
  - reflexivity.
  - reflexivity.
  - repeat (apply NoDup_cons; split;
            [intros H; repeat (apply elem_of_cons in H as [H|H]; [discriminate H|]);
             by apply elem_of_nil in H|]).
    apply NoDup_nil_2.
  - intros g ->%list_elem_of_singleton. intros ? ? ? ?. reflexivity.
  - intros ? ? ? ?. reflexivity.
  - intros g Hg. repeat (apply elem_of_cons in Hg as [->|Hg]; [intros ? ? ? ?; reflexivity|]).
    by apply elem_of_nil in Hg.
  - simpl. lia.
Defined.



(** C7. On a name that is not declared observable in the class of the
    instance (nor in a class of its MRO), [subscribe], [unsubscribe] and the
    manual notification each fail with [ObservablePropertyError], in every
    store where the list attributes are those class creation made. *)
Theorem undeclared_name_is_refused (defs : cb -> function) (s : state) (i : iid)
    (o : object) (name cls : string) (f : cb) (fuel : nat) :
  wf s ->
  objs s !! i = Some o ->
  declared s (obj_class o) name = false ->
  class_name_of i s = (Ret cls, s) ->
  let err := ObservablePropertyError (not_observable_msg name cls) in
  subscribe f i name s = (Exn err, s)
  /\ unsubscribe f i name s = (Exn err, s)
  /\ notify defs fuel i name s = (Exn err, s).
Proof.
  intros Hwf Ho Hund Hcls err. split; [|split].
  - by apply (subscribe_undeclared s i o).
  - by apply (unsubscribe_undeclared s i o).
  - by apply (notify_undeclared s i o).
Qed.

Lemma undeclared_name_is_refused_witness :
  let err := ObservablePropertyError
               "'fahrenheit' is not an observable property of 'Temperature'" in
  subscribe log_cb 1%nat "fahrenheit" world = (Exn err, world)
  /\ unsubscribe log_cb 1%nat "fahrenheit" world = (Exn err, world)
  /\ notify demo_defs 3 1%nat "fahrenheit" world = (Exn err, world).
Proof.
  apply (undeclared_name_is_refused demo_defs world 1%nat
           (Object "Temperature" ∅) "fahrenheit" "Temperature" log_cb 3).
  - apply world_wf.
  - reflexivity.
  - reflexivity.
  - reflexivity.
Defined.

(** C8. [unsubscribe] on a declared observable attribute: when the callback
    is subscribed, exactly one matching entry (the first) is removed and the
    result is [True]; when it is not, the result is [False] and the store is
    unchanged. *)
Theorem unsubscribe_removes_one_entry (s : state) (i : iid) (name : string)
    (d : descriptor) (ls lr : loc) (L : list cb) (f : cb) :
  attached s i name d ls lr ->
  heap s !! ls = Some L ->
  (f ∈ L ->
   exists l1 l2, L = l1 ++ f :: l2 /\ (f ∉ l1) /\
     unsubscribe f i name s = (Ret true, store_list ls (l1 ++ l2) s))
  /\ (f ∉ L -> unsubscribe f i name s = (Ret false, s)).
Proof.
  intros Hatt Hls. pose proof (att_subs _ _ _ _ _ _ Hatt) as Hsubs. split.
  - intros Hin. destruct (remove_first_present f L Hin) as (l1 & l2 & HL & Hl1 & Hrm).
    exists l1, l2. split; [done|]. split; [done|].
    rewrite <- Hrm. by apply unsubscribe_present.
  - intros Hin. by apply (unsubscribe_absent s i name ls L).
Qed.

Lemma unsubscribe_removes_one_entry_witness :
  let s := after (subscribe log_cb 1%nat "celsius";; subscribe audit_cb 1%nat "celsius") world in
  (exists l1 l2, [log_cb; audit_cb] = l1 ++ log_cb :: l2 /\ (log_cb ∉ l1) /\
     unsubscribe log_cb 1%nat "celsius" s = (Ret true, store_list 0%nat (l1 ++ l2) s))
  /\ unsubscribe bad_cb 1%nat "celsius" s = (Ret false, s).
Proof.
  intros s.
  assert (Hatt : attached s 1%nat "celsius" celsius 0%nat 1%nat).
  { apply (attached_frame world); [reflexivity..|]. apply world_attached. by left. }
  split.
  - apply (unsubscribe_removes_one_entry s 1%nat "celsius" celsius 0%nat 1%nat
             [log_cb; audit_cb] log_cb Hatt eq_refl).
    left.
  - apply (unsubscribe_removes_one_entry s 1%nat "celsius" celsius 0%nat 1%nat
             [log_cb; audit_cb] bad_cb Hatt eq_refl).
    intros [H|[H|[]%elem_of_nil]%elem_of_cons]%elem_of_cons; discriminate H.
Defined.

(** C9, evaluated.  Deleting the attribute removes the stored value and then
    raises [AttributeError]: the two lists are not attributes of the
    instance, so they are not discarded, the attribute is still seen as
    observable, and a later [subscribe] succeeds. *)
Theorem delete_leaves_the_lists_in_place :
  let s := after (subscribe log_cb 1%nat "celsius";;
                  assign demo_defs 3 1%nat "celsius" 20%Z) world in
  let r := delete_attr 1%nat "celsius" s in
  fst r = Exn AttributeError
  /\ backing (snd r) !! (1%nat, "celsius") = None
  /\ heap (snd r) !! 0%nat = Some [log_cb]
  /\ fst (hasattr 1%nat "__celsius_subscribers" (snd r)) = Ret true
  /\ subscribe audit_cb 1%nat "celsius" (snd r)
     = (Ret tt, store_list 0%nat [log_cb; audit_cb] (snd r)).
Proof. vm_compute. done. Qed.

(** C10, as the code has it.  The guard check builds its message from the
    [__name__] of the callback it trips on, and that is the first subscriber
    of the list, whichever callback made the assignment.  On a subscriber
    list without repetition whose subscribers before [bad] return and change
    nothing, for an attribute with a setter and outside any running cycle,
    when [bad] starts by assigning the attribute it is notified about and
    does not handle the error: if the first subscriber
    of the list is a callable without [__name__], the outer assignment ends
    with [AttributeError]; if it has one, the outer assignment ends with
    [ObservablePropertyError] naming that first subscriber, also when [bad]
    itself has no [__name__].  In both cases the value of the inner
    assignment is stored, the subscribers after [bad] are not called and the
    guard is emptied. *)
Theorem reentry_error_reads_the_name_of_the_first_subscriber (defs : cb -> function)
    (s : state) (i : iid) (name : string) (d : descriptor) (ls lr : loc)
    (pre post : list cb) (bad first : cb) (cls : string) (e : Z -> Z) (v : Z)
    (fuel : nat) :
  attached s i name d ls lr ->
  has_fset d = true ->
  heap s !! ls = Some (pre ++ bad :: post) ->
  heap s !! lr = Some [] ->
  NoDup pre -> bad ∉ pre ->
  (forall g, g ∈ pre -> quiet defs g v) ->
  reassigns name e (fn_body (defs bad)) ->
  (pre ++ [bad]) !! 0%nat = Some first ->
  class_name_of i s = (Ret cls, s) ->
  S (length pre) < fuel ->
  let s1 := logged (calls i name v (pre ++ [bad]))
              (store_list lr [] (stored i name (e v) s)) in
  (fn_name (defs first) = None ->
   assign defs fuel i name v s = (Exn AttributeError, s1))
  /\ (forall observer, fn_name (defs first) = Some observer ->
        assign defs fuel i name v s
        = (Exn (ObservablePropertyError (not_allowed_msg observer cls name)), s1)).
Proof.
  intros Hatt Hset Hls Hlr Hnd Hbad Hq Hbody Hfirst Hcls Hfuel s1.
  pose proof (assign_reassigning defs s i name d ls lr Hatt Hset fuel v pre post bad first
                e cls Hls Hlr Hnd Hbad Hq Hbody Hfirst Hcls Hfuel) as H.
  unfold reentry_error in H. split.
  - intros Hname. by rewrite Hname in H.
  - intros observer Hname. by rewrite Hname in H.
Qed.

Lemma reentry_error_reads_the_name_of_the_first_subscriber_witness :
  let s := after (subscribe partial_cb 1%nat "celsius";;
                  subscribe audit_cb 1%nat "celsius") world in
  assign demo_defs 2 1%nat "celsius" 10%Z s
  = (Exn AttributeError,
     logged [Called partial_cb 1%nat "celsius" 10%Z]
       (store_list 1%nat [] (stored 1%nat "celsius" 11%Z s))).
Proof.
  intros s.
  assert (Hatt : attached s 1%nat "celsius" celsius 0%nat 1%nat).
  { apply (attached_frame world); [reflexivity..|]. apply world_attached. by left. }
  exact (proj1 (reentry_error_reads_the_name_of_the_first_subscriber demo_defs s 1%nat
                  "celsius" celsius 0%nat 1%nat [] [audit_cb] partial_cb partial_cb
                  "Temperature" (fun v => (v + 1)%Z) 10%Z 2 Hatt eq_refl eq_refl eq_refl
                  (@NoDup_nil_2 cb) (not_elem_of_nil partial_cb)
                  ltac:(intros g Hg; by apply elem_of_nil in Hg)
                  (reassigns_here "celsius" _) eq_refl eq_refl ltac:(simpl; lia))
           eq_refl).
Defined.

(** C10, as the claim words it, with a callable without [__name__] that is
    not the first subscriber: [log] and then the [functools.partial] object
    are subscribed, and the latter assigns the attribute it is notified
    about.  The re-entry is detected and the assignment raises
    [ObservablePropertyError], naming [log]; no [AttributeError] is
    raised. *)
Lemma reentry_by_nameless_callable_counterexample :
  let s := after (subscribe log_cb 1%nat "celsius";;
                  subscribe partial_cb 1%nat "celsius") world in
  let r := assign demo_defs 3 1%nat "celsius" 10%Z s in
  fn_name (demo_defs partial_cb) = None
  /\ fst r = Exn (ObservablePropertyError
                   "'log' is not allowed to modify observable property 'Temperature.celsius'")
  /\ fst r ≠ Exn AttributeError
  /\ trace (snd r) = [Called log_cb 1%nat "celsius" 10%Z; Called partial_cb 1%nat "celsius" 10%Z].
Proof. vm_compute. repeat split; try done. Qed.

(** * Further properties of the module *)

(** ** Manual notification *)

Lemma stored_same (i : iid) (name : string) (v : Z) (s : state) :
  backing s !! (i, name) = Some v -> stored i name v s = s.
Proof.
  intros H. destruct s as [c o h n b t]; simpl in *.
  unfold stored, set_backing; simpl. by rewrite insert_id.
Qed.

Section Notification.
Context (defs : cb -> function).
Context (s : state) (i : iid) (name : string) (d : descriptor) (ls lr : loc).
Context (Hatt : attached s i name d ls lr).
Context (Hown : own_observable s i name d).

(** [_observable_notify] reaches [_run_observers] with the two lists and the
    value the getter returns. *)
Lemma observable_notify_attached (call : cb -> iid -> string -> Z -> M unit)
    (fuel : nat) (v : Z) :
  backing s !! (i, name) = Some v ->
  Observable._observable_notify defs call fuel i name s
  = try_finally
      (observable.__execute_callbacks defs call fuel d i v (VList ls) (VList lr))
      (py_clear (VList lr)) s.
Proof.
  intros Hb.
  destruct Hown as (o & c & Ho & Hcl & Hd).
  destruct Hatt as [(o' & Ho' & Hc) Hp Hs Hr Hgs Hgr _].
  rewrite Ho in Ho'. injection Ho' as <-.
  unfold Observable._observable_notify, Observable.vars_of_class.
  unfold mbind, M_bind, bind. rewrite Ho, Hcl, Hd.
  unfold getattr at 1. rewrite Ho, Hc.
  unfold property_get, fget, mbind, M_bind, bind. rewrite Hp, Hb.
  unfold mret, M_ret, ret. unfold observable._run_observers.
  rewrite Hs, Hr. unfold mbind, M_bind, bind. by rewrite Hgs, Hgr.
Qed.

End Notification.

Lemma house_attached :
  attached house 1%nat "celsius" celsius 0%nat 1%nat
  /\ attached house 1%nat "fahrenheit" fahrenheit 2%nat 3%nat
  /\ attached house 1%nat "kelvin" kelvin 4%nat 5%nat
  /\ attached house 2%nat "celsius" celsius 0%nat 1%nat.
Proof. repeat split; (by eexists) || done. Qed.

Lemma own_observable_intro (s : state) (i : iid) (name : string) (d : descriptor)
    (o : object) :
  objs s !! i = Some o ->
  match classes s !! obj_class o with
  | Some c => cls_dict c !! name
  | None => None
  end = Some (VObs d) ->
  own_observable s i name d.
Proof.
  intros Ho Hd. exists o.
  destruct (classes s !! obj_class o) as [c|]; [|done]. by exists c.
Qed.

Lemma house_own_celsius : own_observable house 1%nat "celsius" celsius.
Proof. by apply (own_observable_intro _ _ _ _ (Object "Thermostat" ∅)). Qed.



(** X2. A manual notification does what assigning the current value again
    does, for an observable that the class of the instance declares itself
    (where [_observable_notify] looks for it): for any callbacks and any
    amount of fuel, [_observable_notify] on such an attribute that holds [v]
    and has a setter gives the outcome and the store of the assignment of
    [v]. *)
Theorem notify_is_assignment_of_current_value (defs : cb -> function) (s : state)
    (i : iid) (name : string) (d : descriptor) (ls lr : loc) (v : Z) (fuel : nat) :
  attached s i name d ls lr ->
  own_observable s i name d ->
  has_fset d = true ->
  backing s !! (i, name) = Some v ->
  notify defs fuel i name s = assign defs fuel i name v s.
Proof.
  intros Hatt Hown Hset Hb. unfold notify.
  rewrite (observable_notify_attached defs s i name d ls lr Hatt Hown _ fuel v Hb).
  rewrite (assign_attached defs s i name d ls lr Hatt).
  unfold try_finally, property_set. rewrite Hset.
  unfold mbind, M_bind, bind, fset, modify.
  rewrite (att_property _ _ _ _ _ _ Hatt).
  fold (stored i name v s). by rewrite (stored_same i name v s Hb).
Qed.

Lemma notify_is_assignment_of_current_value_witness :
  let s := after (subscribe bad_cb 1%nat "celsius";;
                  fset celsius 1%nat 21%Z) house in
  notify demo_defs 3 1%nat "celsius" s = assign demo_defs 3 1%nat "celsius" 21%Z s.
Proof.
  intros s.
  apply (notify_is_assignment_of_current_value demo_defs s 1%nat "celsius" celsius
           0%nat 1%nat 21%Z 3).
  - apply (attached_frame house); [reflexivity..|]. apply house_attached.
  - by apply (own_observable_intro _ _ _ _ (Object "Thermostat" ∅)).
  - reflexivity.
  - reflexivity.
Defined.

(** X3. [_observable_notify] looks the name up in the dictionary of the
    instance's own class only.  For an observable attribute that the class
    inherits from a base class the manual notification is refused with
    [ObservablePropertyError], although [subscribe] accepts the same name on
    the same instance. *)
Theorem notify_refuses_inherited_observable (defs : cb -> function) (s : state)
    (i : iid) (o : object) (c : class) (name cls : string) (d : descriptor)
    (ls lr : loc) (L : list cb) (f : cb) (fuel : nat) :
  attached s i name d ls lr ->
  objs s !! i = Some o ->
  classes s !! obj_class o = Some c ->
  (forall d', cls_dict c !! name ≠ Some (VObs d')) ->
  class_name_of i s = (Ret cls, s) ->
  heap s !! ls = Some L ->
  notify defs fuel i name s
  = (Exn (ObservablePropertyError (not_observable_msg name cls)), s)
  /\ subscribe f i name s = (Ret tt, store_list ls (remove_first f L ++ [f]) s).
Proof.
  intros Hatt Ho Hc Hown Hcls Hls. split.
  - unfold notify, Observable._observable_notify, Observable.vars_of_class.
    unfold mbind, M_bind, bind. rewrite Ho, Hc.
    destruct (cls_dict c !! name) as [[z|l|d']|] eqn:Hd; try by rewrite Hcls.
    by destruct (Hown d').
  - apply subscribe_list; [apply (att_subs _ _ _ _ _ _ Hatt)|done].
Qed.

Lemma notify_refuses_inherited_observable_witness :
  notify demo_defs 3 2%nat "celsius" house
  = (Exn (ObservablePropertyError
            "'celsius' is not an observable property of 'SmartThermostat'"), house)
  /\ subscribe log_cb 2%nat "celsius" house
     = (Ret tt, store_list 0%nat [log_cb] house).
Proof.
  destruct house_attached as (_ & _ & _ & Hatt).
  assert (Hc : exists c, classes house !! "SmartThermostat" = Some c
                         /\ forall d', cls_dict c !! "celsius" ≠ Some (VObs d')).
  { eexists. split; [reflexivity|]. intros d' H. discriminate H. }
  destruct Hc as (c & Hc & Hown).
  exact (notify_refuses_inherited_observable demo_defs house 2%nat
           (Object "SmartThermostat" ∅) c "celsius" "SmartThermostat" celsius
           0%nat 1%nat [] log_cb 3 Hatt eq_refl Hc Hown eq_refl eq_refl).
Defined.

(** ** The scoped notification *)



(** ** Assignment and deletion without the accessor *)

(** X9. Assigning an observable attribute that has no setter raises
    [AttributeError] before any subscriber is called: nothing is recorded,
    the backing values are as before, and the guard is emptied by the
    [finally] clause. *)
Theorem assignment_without_setter_notifies_nobody (defs : cb -> function)
    (s : state) (i : iid) (name : string) (d : descriptor) (ls lr : loc)
    (v : Z) (fuel : nat) :
  attached s i name d ls lr ->
  has_fset d = false ->
  assign defs fuel i name v s = (Exn AttributeError, store_list lr [] s).
Proof.
  intros Hatt Hset.
  rewrite (assign_attached defs s i name d ls lr Hatt).
  unfold try_finally, property_set. rewrite Hset.
  unfold mbind, M_bind, bind. done.
Qed.

Lemma assignment_without_setter_notifies_nobody_witness :
  let s := after (subscribe log_cb 1%nat "kelvin") house in
  assign demo_defs 3 1%nat "kelvin" 300%Z s
  = (Exn AttributeError, store_list 5%nat [] s).
Proof.
  intros s.
  apply (assignment_without_setter_notifies_nobody demo_defs s 1%nat "kelvin" kelvin
           4%nat 5%nat 300%Z 3).
  - apply (attached_frame house); [reflexivity..|]. apply house_attached.
  - reflexivity.
Defined.

(** X10. [del instance.name] on an observable attribute of a well-formed
    store always ends with [AttributeError]: without a deleter, or without a
    stored value, nothing changes; otherwise the stored value is removed and
    nothing else, because the two lists are not attributes of the instance.
    Classes, objects and list objects stay as they were. *)
Theorem delete_ends_with_AttributeError (s : state) (i : iid) (name : string)
    (d : descriptor) (ls lr : loc) :
  wf s ->
  attached s i name d ls lr ->
  delete_attr i name s
  = (Exn AttributeError,
     if has_fdel d then
       match backing s !! (i, name) with
       | Some _ => set_backing (delete (i, name) (backing s)) s
       | None => s
       end
     else s).
Proof.
  intros [_ Hobjs] [(o & Ho & Hl) Hp Hs Hr Hgs Hgr Hap].
  unfold delete_attr, py_delattr. rewrite Ho, Hl.
  unfold observable.__delete__, property_delete, mbind, M_bind, bind.
  destruct (has_fdel d); [|done].
  unfold fdel. rewrite Hp. destruct (backing s !! (i, name)); [|done].
  unfold delattr. simpl. rewrite Ho, Hs.
  by rewrite (proj1 (Hobjs i o name Ho)).
Qed.

Lemma house_wf : wf house.
Proof.
  destruct (define_class_wf "Thermostat" []
              [("celsius", MObservable true true);
               ("fahrenheit", MObservable true false);
               ("kelvin", MObservable false false)] empty_state wf_empty)
    as (s1 & H1 & Hwf1).
  { repeat (apply Forall_cons; split; [intros m; split; intros H; discriminate H|]).
    apply Forall_nil_2. }
  destruct (define_class_wf "SmartThermostat" ["Thermostat"] [("mode", MValue 0)] s1 Hwf1)
    as (s2 & H2 & Hwf2).
  { apply Forall_singleton. intros m; split; intros H; discriminate H. }
  assert (house = after (new_object 2%nat "SmartThermostat")
                    (after (new_object 1%nat "Thermostat") s2)) as ->.
  { unfold house, after, mbind, M_bind, bind. by rewrite H1, H2. }
  by apply new_object_wf, new_object_wf.
Qed.

Lemma delete_ends_with_AttributeError_witness :
  let s := after (subscribe log_cb 1%nat "celsius";;
                  assign demo_defs 3 1%nat "celsius" 20%Z) house in
  delete_attr 1%nat "celsius" s
  = (Exn AttributeError, set_backing (delete (1%nat, "celsius") (backing s)) s).
Proof.
  intros s.
  apply (delete_ends_with_AttributeError s 1%nat "celsius" celsius 0%nat 1%nat).
  - apply (wf_frame house); [reflexivity..|]. apply house_wf.
  - apply (attached_frame house); [reflexivity..|]. apply house_attached.
Defined.

(** ** How subscriptions compose *)

Lemma others_remove_first (f : cb) (L : list cb) :
  others f (remove_first f L) = others f L.
Proof.
  unfold others. induction L as [|g L IH]; [done|]. simpl.
  destruct (decide (f = g)) as [->|Hne].
  - by rewrite filter_cons, decide_False by (intros H; by apply H).
  - by rewrite !filter_cons, IH.
Qed.

Lemma others_snoc (f : cb) (L : list cb) : others f (L ++ [f]) = others f L.
Proof.
  unfold others. rewrite filter_app, filter_cons, decide_False by (intros H; by apply H).
  by rewrite filter_nil, app_nil_r.
Qed.

Section SubscriptionAlgebra.
Context (s : state) (i : iid) (name : string) (ls : loc) (L : list cb).
Context (Hsubs : getattr i (subscribers_name name) s = (Ret (VList ls), s)).
Context (Hls : heap s !! ls = Some L).

(** Both outcomes of [unsubscribe] in one equation. *)
Lemma unsubscribe_list (f : cb) :
  unsubscribe f i name s
  = (Ret (bool_decide (f ∈ L)), store_list ls (remove_first f L) s).
Proof.
  destruct (decide (f ∈ L)) as [Hin|Hin].
  - rewrite bool_decide_eq_true_2 by done. by apply (unsubscribe_present s i name ls L).
  - rewrite bool_decide_eq_false_2, remove_first_absent, store_list_same by done.
    by apply (unsubscribe_absent s i name ls L).
Qed.

Lemma subscribe_then_unsubscribe_list (f : cb) :
  NoDup L ->
  (subscribe f i name;; unsubscribe f i name) s
  = (Ret true, store_list ls (remove_first f L) s).
Proof.
  intros Hnd. destruct (remove_first_NoDup f L Hnd) as [_ Hout].
  unfold mbind, M_bind, bind. rewrite (subscribe_list s i name ls L Hsubs Hls).
  rewrite (unsubscribe_present (store_list ls (remove_first f L ++ [f]) s) i name ls
             (remove_first f L ++ [f])).
  - rewrite (remove_first_middle f (remove_first f L) []) by done.
    by rewrite app_nil_r, store_list_twice.
  - by apply (getattr_list_frame s).
  - heap_lookup.
  - apply elem_of_app. right. left.
Qed.

Lemma subscribe_twice_list (f : cb) :
  NoDup L ->
  (subscribe f i name;; subscribe f i name) s = subscribe f i name s.
Proof.
  intros Hnd. destruct (remove_first_NoDup f L Hnd) as [_ Hout].
  unfold mbind, M_bind, bind. rewrite (subscribe_list s i name ls L Hsubs Hls).
  rewrite (subscribe_list (store_list ls (remove_first f L ++ [f]) s) i name ls
             (remove_first f L ++ [f])).
  - rewrite (remove_first_middle f (remove_first f L) []) by done.
    by rewrite app_nil_r, store_list_twice.
  - by apply (getattr_list_frame s).
  - heap_lookup.
Qed.
End SubscriptionAlgebra.

(** X5. Subscribing a callback and then unsubscribing it leaves it
    unsubscribed, whether or not it was subscribed before: [unsubscribe]
    returns [True] and the list is the original one without the callback. *)
Theorem subscribe_then_unsubscribe_removes (s : state) (i : iid) (name : string)
    (d : descriptor) (ls lr : loc) (L : list cb) (f : cb) :
  attached s i name d ls lr ->
  heap s !! ls = Some L ->
  NoDup L ->
  (subscribe f i name;; unsubscribe f i name) s
  = (Ret true, store_list ls (remove_first f L) s)
  /\ f ∉ remove_first f L.
Proof.
  intros Hatt Hls Hnd. split.
  - by apply subscribe_then_unsubscribe_list; [apply (att_subs _ _ _ _ _ _ Hatt)|..].
  - by apply remove_first_NoDup.
Qed.

Lemma subscribe_then_unsubscribe_removes_witness :
  let s := after (subscribe log_cb 1%nat "celsius";; subscribe audit_cb 1%nat "celsius") house in
  (subscribe log_cb 1%nat "celsius";; unsubscribe log_cb 1%nat "celsius") s
  = (Ret true, store_list 0%nat [audit_cb] s).
Proof.
  intros s.
  apply (subscribe_then_unsubscribe_removes s 1%nat "celsius" celsius 0%nat 1%nat
           [log_cb; audit_cb] log_cb).
  - apply (attached_frame house); [reflexivity..|]. apply house_attached.
  - reflexivity.
  - apply NoDup_cons. split; [|apply NoDup_singleton].
    intros H%list_elem_of_singleton. discriminate H.
Defined.

(** X6. [subscribe] is idempotent: subscribing the same callback twice in a
    row leaves the store exactly as subscribing it once. *)
Theorem subscribe_twice_is_subscribe_once (s : state) (i : iid) (name : string)
    (d : descriptor) (ls lr : loc) (L : list cb) (f : cb) :
  attached s i name d ls lr ->
  heap s !! ls = Some L ->
  NoDup L ->
  (subscribe f i name;; subscribe f i name) s = subscribe f i name s.
Proof.
  intros Hatt Hls Hnd.
  by apply (subscribe_twice_list s i name ls L); [apply (att_subs _ _ _ _ _ _ Hatt)|..].
Qed.

Lemma subscribe_twice_is_subscribe_once_witness :
  let s := after (subscribe log_cb 1%nat "celsius";; subscribe audit_cb 1%nat "celsius") house in
  (subscribe log_cb 1%nat "celsius";; subscribe log_cb 1%nat "celsius") s
  = subscribe log_cb 1%nat "celsius" s.
Proof.
  intros s.
  apply (subscribe_twice_is_subscribe_once s 1%nat "celsius" celsius 0%nat 1%nat
           [log_cb; audit_cb] log_cb).
  - apply (attached_frame house); [reflexivity..|]. apply house_attached.
  - reflexivity.
  - apply NoDup_cons. split; [|apply NoDup_singleton].
    intros H%list_elem_of_singleton. discriminate H.
Defined.

(** X7. Neither [subscribe] nor [unsubscribe] touches the subscriptions of
    other callbacks: the entries of the list other than the callback are the
    same, in the same order, before and after the call. *)
Theorem subscription_leaves_other_callbacks (s : state) (i : iid) (name : string)
    (d : descriptor) (ls lr : loc) (L : list cb) (f : cb) :
  attached s i name d ls lr ->
  heap s !! ls = Some L ->
  others f (list_at (after (subscribe f i name) s) ls) = others f L
  /\ others f (list_at (after (unsubscribe f i name) s) ls) = others f L.
Proof.
  intros Hatt Hls. pose proof (att_subs _ _ _ _ _ _ Hatt) as Hsubs.
  unfold after. split.
  - rewrite (subscribe_list s i name ls L Hsubs Hls). simpl.
    by rewrite list_at_store_eq, others_snoc, others_remove_first.
  - rewrite (unsubscribe_list s i name ls L Hsubs Hls). simpl.
    by rewrite list_at_store_eq, others_remove_first.
Qed.

Lemma subscription_leaves_other_callbacks_witness :
  let s := after (subscribe log_cb 1%nat "celsius";;
                  subscribe audit_cb 1%nat "celsius";;
                  subscribe check_cb 1%nat "celsius") house in
  others audit_cb (list_at (after (subscribe audit_cb 1%nat "celsius") s) 0%nat)
  = others audit_cb [log_cb; audit_cb; check_cb]
  /\ others audit_cb (list_at (after (unsubscribe audit_cb 1%nat "celsius") s) 0%nat)
     = others audit_cb [log_cb; audit_cb; check_cb].
Proof.
  intros s.
  apply (subscription_leaves_other_callbacks s 1%nat "celsius" celsius 0%nat 1%nat
           [log_cb; audit_cb; check_cb] audit_cb).
  - apply (attached_frame house); [reflexivity..|]. apply house_attached.
  - reflexivity.
Defined.

Lemma remove_first_length (f : cb) (L : list cb) :
  length (remove_first f L) <= length L.
Proof.
  induction L as [|g L IH]; [done|]. simpl.
  destruct (decide (f = g)); simpl; lia.
Qed.



(** ** Subscribers that change the store and return *)

Section Through.
Context (defs : cb -> function).
Context (s : state) (i : iid) (name : string) (d : descriptor) (ls lr : loc).
Context (Hatt : attached s i name d ls lr).
Context (Hset : has_fset d = true).

(** The rest of a cycle, from a store where the subscribers still to come
    are quiet and not in the guard. *)
Lemma finish_quiet (fuel n : nat) (v : Z) (done rest g : list cb) (s2 : state) :
  heap s2 !! ls = Some (done ++ rest) ->
  heap s2 !! lr = Some g ->
  NoDup rest ->
  (forall f, f ∈ rest -> f ∉ g) ->
  (forall f, f ∈ rest -> quiet defs f v) ->
  length rest < n ->
  try_finally
    (observable.for_observer defs (call_observer defs (S fuel)) n d i v
       (VList ls) (VList lr) (length done))
    (py_clear (VList lr)) s2
  = (Ret tt, logged (calls i name v rest) (store_list lr [] s2)).
Proof.
  intros Hls Hlr Hnd Hg Hq Hn.
  assert (Hap : ls ≠ lr) by (destruct Hatt; done).
  unfold try_finally.
  replace n with (length rest + S (n - S (length rest)))%nat by lia.
  rewrite (for_observer_quiet defs d i v ls lr Hap fuel rest done [] g s2);
    [|by rewrite app_nil_r|done..].
  rewrite <- length_app.
  rewrite (for_observer_end defs d i v ls lr _ _ (done ++ rest)) by heap_lookup.
  rewrite (att_property _ _ _ _ _ _ Hatt).
  unfold py_clear, modify. f_equal. store_eq.
Qed.

(** A cycle whose subscriber [f], met after the quiet ones, returns: the
    cycle goes on in the store [f] leaves. *)
Lemma assign_through (fuel : nat) (v : Z) (pre post : list cb) (f : cb) (s2 : state) :
  heap s !! ls = Some (pre ++ f :: post) -> heap s !! lr = Some [] ->
  NoDup pre -> f ∉ pre -> (forall g, g ∈ pre -> quiet defs g v) ->
  length pre < fuel ->
  call_observer defs fuel f i name v
    (store_list lr (pre ++ [f]) (logged (calls i name v pre) (stored i name v s)))
  = (Ret tt, s2) ->
  assign defs fuel i name v s
  = try_finally
      (observable.for_observer defs (call_observer defs fuel) (fuel - S (length pre))
         d i v (VList ls) (VList lr) (S (length pre)))
      (py_clear (VList lr)) s2.
Proof.
  intros Hls Hlr Hnd Hf Hq Hfuel Hcall.
  rewrite (assign_reach defs s i name d ls lr Hatt Hset fuel v pre post f) by done.
  unfold try_finally, mbind, M_bind, bind. by rewrite Hcall.
Qed.
End Through.



Lemma remove_first_after (g f : cb) (pre post : list cb) :
  g ∉ pre -> g ≠ f ->
  remove_first g (pre ++ f :: post) = pre ++ f :: remove_first g post.
Proof.
  intros Hpre Hne. induction pre as [|h pre IH]; simpl.
  - by rewrite decide_False.
  - apply not_elem_of_cons in Hpre as [Hh Hpre].
    rewrite decide_False by done. by rewrite IH.
Qed.

(** X12. A callback [g] that a subscriber [f] subscribes during the cycle,
    where [g] is not [f] and has not been notified yet in this cycle, is
    notified in that same cycle: [subscribe] appends to the very list the
    loop of [__execute_callbacks] is walking, so the loop reaches the new
    entry after the subscribers it had left.  If [g] was waiting further on
    it is moved to the end and still called once.  The other subscribers and
    [g] return and change nothing. *)
Theorem subscriber_added_during_cycle_is_notified (defs : cb -> function)
    (s : state) (i : iid) (name : string) (d : descriptor) (ls lr : loc)
    (pre post : list cb) (f g : cb) (v : Z) (fuel : nat) :
  attached s i name d ls lr ->
  has_fset d = true ->
  heap s !! ls = Some (pre ++ f :: post) ->
  heap s !! lr = Some [] ->
  NoDup (pre ++ f :: post) ->
  g ∉ pre -> g ≠ f ->
  (forall h, h ∈ pre ++ post -> quiet defs h v) ->
  quiet defs g v ->
  fn_body (defs f) = Subscribe g Self name ->
  S (S (length (pre ++ f :: post))) < fuel ->
  assign defs fuel i name v s
  = (Ret tt, logged (calls i name v (pre ++ f :: remove_first g post ++ [g]))
               (store_list lr []
                  (store_list ls (pre ++ f :: remove_first g post ++ [g])
                     (stored i name v s)))).
Proof.
  intros Hatt Hset Hls Hlr Hnd Hgpre Hgf Hq Hqg Hbody Hfuel.
  apply NoDup_app in Hnd as (Hpre & Hsep & Hrest).
  apply NoDup_cons in Hrest as [Hf Hpost].
  assert (Hfpre : f ∉ pre) by (intros Hin; apply (Hsep f Hin); left).
  assert (Hap : ls ≠ lr) by (destruct Hatt; done).
  destruct (remove_first_NoDup g post Hpost) as [Hnd' Hg'].
  rewrite !length_app in Hfuel. simpl in Hfuel.
  set (s_call := store_list lr (pre ++ [f])
                   (logged (calls i name v pre) (stored i name v s))).
  set (s2 := store_list ls (pre ++ f :: remove_first g post ++ [g])
               (log (Called f i name v) s_call)).
  destruct fuel as [|[|n]]; [lia..|].
  rewrite (assign_through defs s i name d ls lr Hatt Hset (S (S n)) v pre post f s2);
    try done.
  - replace (S (length pre)) with (length (pre ++ [f]))
      by (rewrite length_app; simpl; lia).
    rewrite (finish_quiet defs s i name d ls lr Hatt (S n) _ v (pre ++ [f])
               (remove_first g post ++ [g]) (pre ++ [f]) s2).
    + f_equal. unfold s2, s_call. apply state_eq; store_simpl; try done.
      * rewrite (insert_insert_ne _ lr ls) by done.
        rewrite insert_insert_eq. by apply insert_insert_ne.
      * unfold calls. rewrite !fmap_app, <- !app_assoc. simpl.
        by rewrite !fmap_app.
    + rewrite <- app_assoc. unfold s2. heap_lookup.
    + unfold s2, s_call. heap_lookup.
    + apply NoDup_app. split; [done|]. split; [|apply NoDup_singleton].
      by intros h Hh ->%list_elem_of_singleton.
    + intros h Hh [Hin|Hin%list_elem_of_singleton]%elem_of_app.
      * apply elem_of_app in Hh as [Hh%remove_first_subseteq|Hh%list_elem_of_singleton].
        -- apply (Hsep h Hin). by right.
        -- by subst h.
      * subst h.
        apply elem_of_app in Hh as [Hh%remove_first_subseteq|Hh%list_elem_of_singleton];
          [done|by subst g].
    + intros h [Hh%remove_first_subseteq|Hh%list_elem_of_singleton]%elem_of_app.
      * apply Hq, elem_of_app. by right.
      * by subst h.
    + rewrite !length_app. pose proof (remove_first_length g post). cbn [length]. lia.
  - by intros h Hh; apply Hq, elem_of_app; left.
  - lia.
  - cbn [call_observer]. unfold mbind at 1. unfold M_bind at 1. unfold bind at 1.
    unfold modify at 1. rewrite Hbody. cbn [exec resolve].
    rewrite (subscribe_list (log (Called f i name v) s_call) i name ls (pre ++ f :: post)).
    + rewrite remove_first_after by done. by rewrite <- app_assoc.
    + apply (getattr_list_frame s); [done..|]. apply (att_subs _ _ _ _ _ _ Hatt).
    + unfold s_call. heap_lookup.
Qed.

Lemma subscriber_added_during_cycle_is_notified_witness :
  let s := after (subscribe log_cb 1%nat "celsius";; subscribe recruit_cb 1%nat "celsius";;
                  subscribe check_cb 1%nat "celsius") house in
  assign house_defs 6 1%nat "celsius" 10%Z s
  = (Ret tt, logged (calls 1%nat "celsius" 10%Z [log_cb; recruit_cb; check_cb; audit_cb])
               (store_list 1%nat []
                  (store_list 0%nat [log_cb; recruit_cb; check_cb; audit_cb]
                     (stored 1%nat "celsius" 10%Z s)))).
Proof.
  intros s.
  assert (Hatt : attached s 1%nat "celsius" celsius 0%nat 1%nat).
  { apply (attached_frame house); [reflexivity..|]. apply house_attached. }
  assert (Hnd : NoDup [log_cb; recruit_cb; check_cb]).
  { apply (bool_decide_unpack _). vm_compute. exact I. }
  assert (Hg : audit_cb ∉ [log_cb]).
  { intros H%list_elem_of_singleton. discriminate H. }
  assert (Hq : forall h, h ∈ [log_cb; check_cb] -> quiet house_defs h 10%Z).
  { intros h Hh.
    repeat (apply elem_of_cons in Hh as [->|Hh]; [intros ? ? ? ?; reflexivity|]).
    by apply elem_of_nil in Hh. }
  exact (subscriber_added_during_cycle_is_notified house_defs s 1%nat "celsius" celsius
           0%nat 1%nat [log_cb] [check_cb] recruit_cb audit_cb 10%Z 6 Hatt eq_refl eq_refl
           eq_refl Hnd Hg ltac:(discriminate) Hq ltac:(intros ? ? ? ?; reflexivity)
           eq_refl ltac:(simpl; lia)).
Defined.





(** ** Instances of one class *)





(** ** Class creation over a base class *)

Lemma mro_lookup_other_class (s s' : state) (k : string) (c : class)
    (mro : list string) (name : string) :
  classes s' = <[k := c]> (classes s) -> k ∉ mro ->
  mro_lookup s' mro name = mro_lookup s mro name.
Proof.
  intros Hc. induction mro as [|b rest IH]; [done|].
  intros [Hb Hrest]%not_elem_of_cons. simpl.
  rewrite Hc, lookup_insert_ne by done. by rewrite IH.
Qed.

(** The class statement of a subclass that declares the observable [n]
    again, where the base classes already have the two lists of [n]:
    [hasattr(owner, ...)] finds them through the MRO, and [__set_name__]
    binds no list in the subclass. *)
Lemma define_class_redeclaring (s : state) (k : string) (mro : list string)
    (n : string) (fs fd : bool) (x y : pyval) :
  k ∉ mro -> plain_name n ->
  mro_lookup s mro (subscribers_name n) = Some x ->
  mro_lookup s mro (recursions_name n) = Some y ->
  define_class k mro [(n, MObservable fs fd)] s
  = (Ret tt,
     set_classes
       (<[k := Class k (k :: mro)
                 {[n := VObs (Descriptor n (subscribers_name n) (recursions_name n) fs fd)]}]>
          (classes s)) s).
Proof.
  intros Hk Hn Hx Hy.
  destruct (Hn n) as [Hns Hnr].
  unfold define_class, mbind, M_bind, bind, modify at 1.
  cbn [fmap list_fmap prod_map id member_value fst snd list_to_map foldr uncurry].
  set (D := (<[n := VObs (Descriptor "" "" "" fs fd)]> ∅ : gmap string pyval)).
  set (s1 := set_classes (<[k := Class k (k :: mro) D]> (classes s)) s).
  assert (Hlook : forall name v, name ≠ n -> mro_lookup s mro name = Some v ->
                    class_lookup s1 k name = Some v).
  { intros name v Hne Hv. unfold class_lookup, s1. cbn [classes set_classes].
    rewrite lookup_insert_eq. cbn [cls_mro mro_lookup classes set_classes].
    rewrite lookup_insert_eq. cbn [cls_dict]. unfold D.
    rewrite lookup_insert_ne by done. rewrite lookup_empty.
    by rewrite (mro_lookup_other_class s _ k (Class k (k :: mro) D) mro name). }
  cbn [set_names]. unfold observable.__set_name__. cbv zeta.
  cbn [subscribers recursions has_fset has_fdel].
  unfold mbind, M_bind, bind, observable.class_hasattr.
  rewrite (Hlook _ x (not_eq_sym Hns) Hx).
  rewrite bool_decide_eq_true_2 by eauto.
  cbn [negb]. unfold mret at 1. unfold M_ret at 1. unfold ret at 1.
  rewrite (Hlook _ y (not_eq_sym Hnr) Hy).
  rewrite bool_decide_eq_true_2 by eauto.
  cbn [negb]. unfold mret, M_ret, ret, modify.
  unfold s1 at 1. cbn [classes set_classes]. rewrite lookup_insert_eq.
  f_equal. unfold s1. apply state_eq; cbn [classes objs heap next_loc backing trace set_classes];
    try done.
  cbn [cls_name cls_mro cls_dict]. rewrite insert_insert_eq. unfold D.
  by rewrite insert_insert_eq.
Qed.

Lemma class_lookup_of_getattr (s : state) (i : iid) (o : object) (key : string)
    (l : loc) :
  objs s !! i = Some o -> obj_dict o !! key = None ->
  getattr i key s = (Ret (VList l), s) ->
  class_lookup s (obj_class o) key = Some (VList l).
Proof.
  intros Ho Hd. unfold getattr. rewrite Ho, Hd.
  destruct (class_lookup s (obj_class o) key) as [[z|l'|d]|].
  - intros [=].
  - by intros [= ->].
  - unfold property_get, fget, mbind, M_bind, bind, mret, M_ret, ret.
    destruct (backing s !! (i, observable_property d)); intros [=].
  - intros [=].
Qed.

(** X17. A subclass that declares an observable of its base class again
    gets no lists of its own: [__set_name__] asks [hasattr(owner, ...)],
    which finds the lists of the base class through the MRO, so it binds
    nothing, and an instance of the subclass reads the very list objects the
    instances of the base class read.  No list object is created. *)
Theorem redeclared_observable_shares_the_lists_of_the_base (s : state)
    (k b : string) (cb' : class) (n : string) (fs fd : bool) (i j : iid)
    (o : object) (d : descriptor) (ls lr : loc) :
  wf s ->
  objs s !! i = Some o -> obj_class o = b ->
  classes s !! b = Some cb' ->
  attached s i n d ls lr ->
  plain_name n ->
  k ∉ cls_mro cb' ->
  let s' := after (define_class k (cls_mro cb') [(n, MObservable fs fd)];;
                   new_object j k) s in
  attached s' j n (Descriptor n (subscribers_name n) (recursions_name n) fs fd) ls lr
  /\ heap s' = heap s /\ next_loc s' = next_loc s.
Proof.
  intros [_ Hobjs] Ho Hcls Hb Hatt Hn Hk s'.
  destruct (Hobjs i o n Ho) as [Hds Hdr].
  destruct (Hn n) as [Hns Hnr].
  pose proof (class_lookup_of_getattr s i o _ ls Ho Hds (att_subs _ _ _ _ _ _ Hatt)) as Hs.
  pose proof (class_lookup_of_getattr s i o _ lr Ho Hdr (att_recs _ _ _ _ _ _ Hatt)) as Hr.
  rewrite Hcls in Hs, Hr. unfold class_lookup in Hs, Hr. rewrite Hb in Hs, Hr.
  set (dk := Descriptor n (subscribers_name n) (recursions_name n) fs fd).
  set (ck := Class k (k :: cls_mro cb') {[n := VObs dk]}).
  assert (Hs' : s' = set_objs (<[j := Object k ∅]> (objs s))
                       (set_classes (<[k := ck]> (classes s)) s)).
  { unfold s', after, mbind, M_bind, bind.
    rewrite (define_class_redeclaring s k (cls_mro cb') n fs fd _ _ Hk Hn Hs Hr).
    unfold new_object, modify. done. }
  clearbody s'. subst s'.
  set (s' := set_objs (<[j := Object k ∅]> (objs s))
               (set_classes (<[k := ck]> (classes s)) s)).
  assert (Hobj : objs s' !! j = Some (Object k ∅)) by apply lookup_insert_eq.
  assert (Hck : classes s' !! k = Some ck) by apply lookup_insert_eq.
  assert (Hlist : forall key l, key ≠ n -> mro_lookup s (cls_mro cb') key = Some (VList l) ->
                    getattr j key s' = (Ret (VList l), s')).
  { intros key l Hne Hl. unfold getattr. rewrite Hobj.
    unfold class_lookup. cbn [obj_class obj_dict]. rewrite Hck.
    unfold ck at 1. cbn [cls_mro mro_lookup]. rewrite Hck.
    unfold ck at 1. cbn [cls_dict]. rewrite lookup_singleton_ne by done.
    rewrite (mro_lookup_other_class s s' k ck (cls_mro cb') key) by done.
    rewrite Hl. by rewrite lookup_empty. }
  split; [|done].
  split.
  - exists (Object k ∅). split; [done|].
    unfold class_lookup. cbn [obj_class]. rewrite Hck.
    unfold ck at 1. cbn [cls_mro mro_lookup]. rewrite Hck.
    unfold ck. cbn [cls_dict]. by rewrite lookup_singleton_eq.
  - done.
  - done.
  - done.
  - by apply Hlist.
  - by apply Hlist.
  - by destruct Hatt.
Qed.

Lemma redeclared_observable_shares_the_lists_of_the_base_witness :
  let s' := after (define_class "Probe" ["Thermostat"] [("celsius", MObservable true true)];;
                   new_object 3%nat "Probe") house in
  attached s' 3%nat "celsius" celsius 0%nat 1%nat
  /\ heap s' = heap house /\ next_loc s' = next_loc house.
Proof.
  assert (Hn : plain_name "celsius") by (intros m; split; intros H; discriminate H).
  assert (Hk : "Probe" ∉ ["Thermostat"]).
  { intros H%list_elem_of_singleton. discriminate H. }
  destruct (classes house !! "Thermostat") as [c|] eqn:Hc; [|by vm_compute in Hc].
  assert (Hm : cls_mro c = ["Thermostat"]).
  { assert (H : cls_mro <$> classes house !! "Thermostat" = Some ["Thermostat"])
      by (vm_compute; reflexivity).
    rewrite Hc in H. by injection H. }
  rewrite <- Hm in Hk.
  pose proof (redeclared_observable_shares_the_lists_of_the_base house "Probe" "Thermostat"
                c "celsius" true true 1%nat 3%nat (Object "Thermostat" ∅) celsius
                0%nat 1%nat house_wf eq_refl eq_refl Hc (proj1 house_attached) Hn Hk) as H.
  rewrite Hm in H. exact H.
Defined.

(** ** Class creation, in general *)

Lemma recursions_name_inj (n m : string) :
  recursions_name n = recursions_name m -> n = m.
Proof.
  unfold recursions_name. intros H. apply list_ascii_inj.
  apply (f_equal String.list_ascii_of_string) in H. rewrite !list_ascii_app in H.
  apply app_inv_head in H. by apply app_inv_tail in H.
Qed.

(** A class with no base but itself finds a name in its own dictionary. *)
Lemma class_lookup_own (s : state) (k : string) (c : class) (key : string) :
  classes s !! k = Some c -> cls_mro c = [k] ->
  class_lookup s k key = cls_dict c !! key.
Proof.
  intros Hc Hm. unfold class_lookup. rewrite Hc, Hm. cbn [mro_lookup]. rewrite Hc.
  by destruct (cls_dict c !! key).
Qed.

(** One [__set_name__] call of class creation, for a name whose lists the
    class does not have: two list objects are allocated, one after the other,
    and bound in the class, and the descriptor is bound with its names. *)
Lemma set_name_creates (s : state) (k : string) (c : class) (n : string)
    (fs fd : bool) (rest : list (string * member)) :
  classes s !! k = Some c -> cls_mro c = [k] ->
  cls_dict c !! subscribers_name n = None ->
  cls_dict c !! recursions_name n = None ->
  set_names k ((n, MObservable fs fd) :: rest) s
  = set_names k rest
      (State (<[k := Class (cls_name c) (cls_mro c)
                        (<[n := VObs (Descriptor n (subscribers_name n) (recursions_name n)
                                        fs fd)]>
                           (<[recursions_name n := VList (S (next_loc s))]>
                              (<[subscribers_name n := VList (next_loc s)]> (cls_dict c))))]>
                (classes s))
         (objs s) (<[S (next_loc s) := []]> (<[next_loc s := []]> (heap s)))
         (S (S (next_loc s))) (backing s) (trace s)).
Proof.
  intros Hc Hm Hs Hr. cbn [set_names].
  unfold observable.__set_name__. cbv zeta. cbn [subscribers recursions has_fset has_fdel].
  unfold mbind, M_bind, bind, observable.class_hasattr at 1.
  rewrite (class_lookup_own s k c _ Hc Hm), Hs.
  rewrite bool_decide_eq_false_2 by (by intros [? ?]).
  cbn [negb]. unfold observable.class_setattr_new_list at 1. unfold modify at 1.
  cbv zeta. rewrite Hc.
  set (D1 := <[subscribers_name n := VList (next_loc s)]> (cls_dict c)).
  set (c1 := Class (cls_name c) (cls_mro c) D1).
  set (s1 := set_classes (<[k := c1]> (classes s))
               (State (classes s) (objs s) (<[next_loc s := []]> (heap s))
                  (S (next_loc s)) (backing s) (trace s))).
  assert (Hc1 : classes s1 !! k = Some c1) by apply lookup_insert_eq.
  unfold observable.class_hasattr at 1.
  rewrite (class_lookup_own s1 k c1 _ Hc1 Hm).
  assert (Hr1 : cls_dict c1 !! recursions_name n = None).
  { unfold c1, D1. cbn [cls_dict]. rewrite lookup_insert_ne; [done|].
    apply subscribers_recursions_ne. }
  rewrite Hr1.
  rewrite bool_decide_eq_false_2 by (by intros [? ?]).
  cbn [negb]. unfold observable.class_setattr_new_list at 1. unfold modify at 1.
  cbv zeta. rewrite Hc1.
  unfold mret at 1. unfold M_ret at 1. unfold ret at 1. unfold modify at 1.
  cbn [classes set_classes]. rewrite lookup_insert_eq.
  f_equal. unfold s1, c1, D1.
  apply state_eq; cbn [classes objs heap next_loc backing trace set_classes
                        cls_name cls_mro cls_dict]; try done.
  by rewrite !insert_insert_eq.
Qed.

Lemma plain_names_hide_lists (members : list (string * member)) (x : string) :
  Forall (fun m => plain_name m.1) members ->
  (subscribers_name x ∉ members.*1) /\ (recursions_name x ∉ members.*1).
Proof.
  intros Hplain.
  split; intros ((n & m) & Heq & Hin)%list_elem_of_fmap; simpl in Heq;
    apply (proj1 (Forall_forall _ _) Hplain) in Hin; simpl in Hin;
    destruct (Hin x) as [H1 H2]; congruence.
Qed.

(** The [__set_name__] calls of a class body with distinct, plain names, on
    a class that inherits nothing: each observable of the body ends bound
    with its names and with two lists, the lists are fresh, and whatever the
    dictionary held under other names is still there. *)
Lemma set_names_fresh (k : string) (members : list (string * member)) :
  forall s c,
    classes s !! k = Some c -> cls_mro c = [k] -> fresh_lists s (cls_dict c) ->
    NoDup members.*1 -> Forall (fun m => plain_name m.1) members ->
    (forall n, n ∈ members.*1 ->
       cls_dict c !! subscribers_name n = None /\ cls_dict c !! recursions_name n = None) ->
    exists s' c',
      set_names k members s = (Ret tt, s')
      /\ classes s' !! k = Some c' /\ cls_mro c' = [k] /\ objs s' = objs s
      /\ fresh_lists s' (cls_dict c')
      /\ (forall n fs fd, (n, MObservable fs fd) ∈ members ->
            cls_dict c' !! n
            = Some (VObs (Descriptor n (subscribers_name n) (recursions_name n) fs fd))
            /\ exists ls lr, cls_dict c' !! subscribers_name n = Some (VList ls)
                             /\ cls_dict c' !! recursions_name n = Some (VList lr))
      /\ (forall key v, cls_dict c !! key = Some v -> key ∉ members.*1 ->
            cls_dict c' !! key = Some v).
Proof.
  induction members as [|[n m] rest IH]; intros s c Hc Hm Hfresh Hnd Hplain Htodo.
  - exists s, c. split; [done|]. split; [done|]. split; [done|]. split; [done|].
    split; [done|]. split; [|done].
    intros n fs fd Hin. by apply elem_of_nil in Hin.
  - cbn [fmap list_fmap fst] in Hnd, Htodo |- *.
    apply NoDup_cons in Hnd as [Hn Hnd].
    apply Forall_cons in Hplain as [Hpn Hplain]. simpl in Hpn.
    destruct (plain_names_hide_lists rest n Hplain) as [Hhs Hhr].
    destruct m as [fs0 fd0|z].
    + destruct (Htodo n ltac:(left)) as [Hs Hr].
      rewrite (set_name_creates s k c n fs0 fd0 rest Hc Hm Hs Hr).
      set (l := next_loc s).
      set (dn := Descriptor n (subscribers_name n) (recursions_name n) fs0 fd0).
      set (D1 := <[n := VObs dn]>
                   (<[recursions_name n := VList (S l)]>
                      (<[subscribers_name n := VList l]> (cls_dict c)))).
      set (c1 := Class (cls_name c) (cls_mro c) D1).
      set (s1 := State (<[k := c1]> (classes s)) (objs s)
                   (<[S l := []]> (<[l := []]> (heap s))) (S (S l)) (backing s) (trace s)).
      destruct Hfresh as [Hal Hinj].
      assert (Hcases : forall key l', D1 !! key = Some (VList l') ->
                (key = recursions_name n /\ l' = S l)
                \/ (key = subscribers_name n /\ l' = l)
                \/ (cls_dict c !! key = Some (VList l') /\ (l' < l)%nat)).
      { intros key l' Hkey. unfold D1 in Hkey.
        destruct (decide (key = n)) as [->|Hne1].
        { rewrite lookup_insert_eq in Hkey. discriminate Hkey. }
        rewrite lookup_insert_ne in Hkey by done.
        destruct (decide (key = recursions_name n)) as [->|Hne2].
        { rewrite lookup_insert_eq in Hkey. injection Hkey as <-. by left. }
        rewrite lookup_insert_ne in Hkey by done.
        destruct (decide (key = subscribers_name n)) as [->|Hne3].
        { rewrite lookup_insert_eq in Hkey. injection Hkey as <-. right. by left. }
        rewrite lookup_insert_ne in Hkey by done.
        right. right. split; [done|]. by destruct (Hal key l' Hkey). }
      assert (Hsr : subscribers_name n ≠ recursions_name n)
        by apply subscribers_recursions_ne.
      destruct (IH s1 c1) as (s' & c' & Hrun & Hc' & Hm' & Hobjs & Hfresh' & Hobs & Hkeep).
      * apply lookup_insert_eq.
      * done.
      * split.
        -- intros key l' Hkey. unfold s1. cbn [next_loc heap].
           destruct (Hcases key l' Hkey) as [[_ ->]|[[_ ->]|[Hold Hlt]]].
           ++ split; [lia|apply lookup_insert_eq].
           ++ split; [lia|]. rewrite lookup_insert_ne by lia. apply lookup_insert_eq.
           ++ split; [lia|]. rewrite !lookup_insert_ne by lia. by destruct (Hal key l' Hold).
        -- intros key1 key2 l' H1 H2.
           destruct (Hcases key1 l' H1) as [[-> E1]|[[-> E1]|[Hold1 Hlt1]]];
             destruct (Hcases key2 l' H2) as [[-> E2]|[[-> E2]|[Hold2 Hlt2]]];
             try done; try lia.
           by apply (Hinj key1 key2 l').
      * done.
      * done.
      * intros n' Hn'. destruct (Htodo n' ltac:(by right)) as [Hs' Hr'].
        assert (Hnn : n' ≠ n) by (intros ->; done).
        destruct (Hpn n') as [Hp1 Hp2].
        unfold c1, D1. cbn [cls_dict]. split.
        -- rewrite lookup_insert_ne by done.
           rewrite lookup_insert_ne by (intros H; symmetry in H; by apply subscribers_recursions_ne in H).
           rewrite lookup_insert_ne by (intros H%subscribers_name_inj; done). done.
        -- rewrite lookup_insert_ne by done.
           rewrite lookup_insert_ne by (intros H%recursions_name_inj; done).
           rewrite lookup_insert_ne by apply subscribers_recursions_ne. done.
      * exists s', c'. split; [done|]. split; [done|]. split; [done|]. split; [done|].
        split; [done|]. split.
        -- intros n' fs fd [Heq|Hin]%elem_of_cons; [|by apply Hobs].
           injection Heq as -> -> ->.
           destruct (Hpn n) as [Hp1 Hp2].
           split.
           ++ apply Hkeep; [|done]. unfold c1, D1. cbn [cls_dict]. apply lookup_insert_eq.
           ++ exists l, (S l). split.
              ** apply Hkeep; [|done]. unfold c1, D1. cbn [cls_dict].
                 rewrite lookup_insert_ne by done.
                 rewrite lookup_insert_ne by done. apply lookup_insert_eq.
              ** apply Hkeep; [|done]. unfold c1, D1. cbn [cls_dict].
                 rewrite lookup_insert_ne by done. apply lookup_insert_eq.
        -- intros key v Hkey [Hne Hnot]%not_elem_of_cons.
           apply Hkeep; [|done]. unfold c1, D1. cbn [cls_dict].
           rewrite lookup_insert_ne by done.
           rewrite lookup_insert_ne by (intros <-; congruence).
           rewrite lookup_insert_ne by (intros <-; congruence). done.
    + cbn [set_names].
      destruct (IH s c Hc Hm Hfresh Hnd Hplain) as
        (s' & c' & Hrun & Hc' & Hm' & Hobjs & Hfresh' & Hobs & Hkeep).
      { intros n' Hn'. apply Htodo. by right. }
      exists s', c'. split; [done|]. split; [done|]. split; [done|]. split; [done|].
      split; [done|]. split.
      * intros n' fs fd [Heq|Hin]%elem_of_cons; [discriminate Heq|by apply Hobs].
      * intros key v Hkey [Hne Hnot]%not_elem_of_cons. by apply Hkeep.
Qed.

(** X18. Class creation gives every observable of the class body its own
    two lists.  For a class without bases whose body binds distinct names,
    none of them the name of a list attribute, the [__set_name__] calls
    succeed, and a new instance finds each observable of the body under its
    name, told its three names, with an empty subscriber list and an empty
    guard; the lists of two different attributes are four different list
    objects. *)
Theorem class_creation_gives_each_observable_its_lists (s : state) (k : string)
    (members : list (string * member)) (j : iid) :
  NoDup members.*1 ->
  Forall (fun m => plain_name m.1) members ->
  exists s',
    (define_class k [] members;; new_object j k) s = (Ret tt, s')
    /\ (forall n fs fd, (n, MObservable fs fd) ∈ members ->
          exists ls lr,
            attached s' j n
              (Descriptor n (subscribers_name n) (recursions_name n) fs fd) ls lr
            /\ heap s' !! ls = Some [] /\ heap s' !! lr = Some [])
    /\ (forall n n' d d' ls lr ls' lr',
          n ≠ n' -> attached s' j n d ls lr -> attached s' j n' d' ls' lr' ->
          ls ≠ ls' /\ ls ≠ lr' /\ lr ≠ ls' /\ lr ≠ lr').
Proof.
  intros Hnd Hplain.
  unfold define_class, mbind, M_bind, bind, modify at 1.
  set (D0 := (list_to_map (prod_map id member_value <$> members) : gmap string pyval)).
  set (c0 := Class k [k] D0).
  set (s0 := set_classes (<[k := c0]> (classes s)) s).
  assert (Hin0 : forall key v, D0 !! key = Some v ->
            exists m, (key, m) ∈ members /\ v = member_value m).
  { intros key v H%elem_of_list_to_map_2.
    apply list_elem_of_fmap in H as ([n m] & Heq & Hin).
    injection Heq as -> ->. by exists m. }
  destruct (set_names_fresh k members s0 c0) as
    (s1 & c1 & Hrun & Hc1 & Hm1 & Hobjs & [Hal Hinj] & Hobs & _); try done.
  { apply lookup_insert_eq. }
  { split.
    - intros key l (m & _ & Hv)%Hin0. destruct m; discriminate Hv.
    - intros key1 key2 l (m & _ & Hv)%Hin0. destruct m; discriminate Hv. }
  { intros n Hn.
    destruct (plain_names_hide_lists members n Hplain) as [Hs Hr].
    split.
    - destruct (D0 !! subscribers_name n) as [v|] eqn:E; [|done].
      apply Hin0 in E as (m & Hin & _). exfalso. apply Hs.
      by apply (list_elem_of_fmap_2' fst _ (subscribers_name n, m)).
    - destruct (D0 !! recursions_name n) as [v|] eqn:E; [|done].
      apply Hin0 in E as (m & Hin & _). exfalso. apply Hr.
      by apply (list_elem_of_fmap_2' fst _ (recursions_name n, m)). }
  rewrite Hrun. unfold new_object, modify.
  set (s2 := set_objs (<[j := Object k ∅]> (objs s1)) s1).
  assert (Hj : objs s2 !! j = Some (Object k ∅)) by apply lookup_insert_eq.
  assert (Hc2 : classes s2 !! k = Some c1) by done.
  assert (Hlist : forall key l, cls_dict c1 !! key = Some (VList l) ->
                    getattr j key s2 = (Ret (VList l), s2)).
  { intros key l Hkey. unfold getattr. rewrite Hj. cbn [obj_class obj_dict].
    rewrite (class_lookup_own s2 k c1 key Hc2 Hm1), Hkey. by rewrite lookup_empty. }
  assert (Hback : forall key l, getattr j key s2 = (Ret (VList l), s2) ->
                    cls_dict c1 !! key = Some (VList l)).
  { intros key l Hget.
    rewrite <- (class_lookup_own s2 k c1 key Hc2 Hm1).
    apply (class_lookup_of_getattr s2 j (Object k ∅) key l Hj); [apply lookup_empty|done]. }
  exists s2. split; [done|]. split.
  - intros n fs fd Hin. destruct (Hobs n fs fd Hin) as (Hd & ls & lr & Hs & Hr).
    exists ls, lr. split; [|split].
    + split; try done.
      * exists (Object k ∅). split; [done|]. cbn [obj_class].
        by rewrite (class_lookup_own s2 k c1 n Hc2 Hm1).
      * by apply Hlist.
      * by apply Hlist.
      * intros ->. by apply (subscribers_recursions_ne n n), (Hinj _ _ lr).
    + by destruct (Hal _ _ Hs).
    + by destruct (Hal _ _ Hr).
  - intros n n' d d' ls lr ls' lr' Hne Ha Ha'.
    pose proof (Hback _ _ (att_subs _ _ _ _ _ _ Ha)) as H1.
    pose proof (Hback _ _ (att_recs _ _ _ _ _ _ Ha)) as H2.
    pose proof (Hback _ _ (att_subs _ _ _ _ _ _ Ha')) as H3.
    pose proof (Hback _ _ (att_recs _ _ _ _ _ _ Ha')) as H4.
    repeat split; intros ->.
    + by apply Hne, subscribers_name_inj, (Hinj _ _ ls').
    + by apply (subscribers_recursions_ne n n'), (Hinj _ _ lr').
    + by apply (subscribers_recursions_ne n' n), (Hinj _ _ ls').
    + by apply Hne, recursions_name_inj, (Hinj _ _ lr').
Qed.

Lemma class_creation_gives_each_observable_its_lists_witness :
  let members := [("celsius", MObservable true true);
                  ("fahrenheit", MObservable true false);
                  ("kelvin", MObservable false false)] in
  exists s',
    (define_class "Thermostat" [] members;; new_object 1%nat "Thermostat") empty_state
    = (Ret tt, s')
    /\ (forall n fs fd, (n, MObservable fs fd) ∈ members ->
          exists ls lr,
            attached s' 1%nat n
              (Descriptor n (subscribers_name n) (recursions_name n) fs fd) ls lr
            /\ heap s' !! ls = Some [] /\ heap s' !! lr = Some [])
    /\ (forall n n' d d' ls lr ls' lr',
          n ≠ n' -> attached s' 1%nat n d ls lr -> attached s' 1%nat n' d' ls' lr' ->
          ls ≠ ls' /\ ls ≠ lr' /\ lr ≠ ls' /\ lr ≠ lr').
Proof.
  intros members.
  assert (Hnd : NoDup members.*1).
  { apply (bool_decide_unpack _). vm_compute. exact I. }
  assert (Hplain : Forall (fun m => plain_name m.1) members).
  { repeat (apply Forall_cons; split; [intros m; split; intros H; discriminate H|]).
    apply Forall_nil_2. }
  exact (class_creation_gives_each_observable_its_lists empty_state "Thermostat" members
           1%nat Hnd Hplain).
Defined.

(** ** Notification requested by a subscriber *)



(** ** What subscribing never does *)

Lemma unsubscribe_touches_lists_only (f : cb) (i : iid) (name : string) (s : state) :
  trace (after (unsubscribe f i name) s) = trace s
  /\ backing (after (unsubscribe f i name) s) = backing s
  /\ next_loc (after (unsubscribe f i name) s) = next_loc s.
Proof.
  unfold after, unsubscribe, hasattr. cbv zeta. unfold mbind, M_bind, bind.
  pose proof (getattr_pure i (subscribers_name name) s) as Hg.
  pose proof (class_name_of_snd i s) as Hn.
  destruct (getattr i (subscribers_name name) s) as [[v|e|] s0] eqn:Hget;
    simpl in Hg; subst s0.
  - rewrite Hget. destruct v as [z|l|d]; simpl; try done.
    unfold mret, M_ret, ret. by destruct (bool_decide _).
  - destruct e; try done.
    destruct (class_name_of i s) as [[c|e|] s0]; simpl in Hn; by subst s0.
  - done.
Qed.

(** X20. Subscribing and unsubscribing call nobody and write no value: in
    any store and for any arguments, whether they return or raise, the
    record of calls and the values of the attributes are as before, and so
    are the classes and the instances; they work on list objects only, and
    allocate none. *)
Theorem subscribing_calls_nobody_and_stores_nothing (f : cb) (i : iid) (name : string)
    (s : state) :
  (trace (after (subscribe f i name) s) = trace s
   /\ backing (after (subscribe f i name) s) = backing s
   /\ next_loc (after (subscribe f i name) s) = next_loc s
   /\ classes (after (subscribe f i name) s) = classes s
   /\ objs (after (subscribe f i name) s) = objs s)
  /\ (trace (after (unsubscribe f i name) s) = trace s
      /\ backing (after (unsubscribe f i name) s) = backing s
      /\ next_loc (after (unsubscribe f i name) s) = next_loc s
      /\ classes (after (unsubscribe f i name) s) = classes s
      /\ objs (after (unsubscribe f i name) s) = objs s).
Proof.
  pose proof (unsubscribe_touches_lists_only f i name s) as (Ht & Hb & Hl).
  pose proof (unsubscribe_frame f i name s) as [Hc Ho].
  pose proof (subscribe_frame f i name s) as [Hc' Ho'].
  split; [|done].
  split; [|split; [|split; [|done]]].
  - unfold after, subscribe in *. cbv zeta. unfold mbind, M_bind, bind.
    destruct (unsubscribe f i name s) as [[b|e|] s0]; simpl in Ht; try done.
    pose proof (getattr_pure i (subscribers_name name) s0) as Hg.
    destruct (getattr i (subscribers_name name) s0) as [[v|e|] s1]; simpl in Hg; subst s1;
      try done.
    by destruct v.
  - unfold after, subscribe in *. cbv zeta. unfold mbind, M_bind, bind.
    destruct (unsubscribe f i name s) as [[b|e|] s0]; simpl in Hb; try done.
    pose proof (getattr_pure i (subscribers_name name) s0) as Hg.
    destruct (getattr i (subscribers_name name) s0) as [[v|e|] s1]; simpl in Hg; subst s1;
      try done.
    by destruct v.
  - unfold after, subscribe in *. cbv zeta. unfold mbind, M_bind, bind.
    destruct (unsubscribe f i name s) as [[b|e|] s0]; simpl in Hl; try done.
    pose proof (getattr_pure i (subscribers_name name) s0) as Hg.
    destruct (getattr i (subscribers_name name) s0) as [[v|e|] s1]; simpl in Hg; subst s1;
      try done.
    by destruct v.
Qed.
